(** * Heart-care: the submission intake handler

    A shallow embedding of [lambda_user_form_handler.py] and the properties
    of its request/response contract.

    The handler is a linear pipeline (parse, validate, build record, persist,
    respond) over dynamically typed data.  The embedding keeps that shape:

    - a Python [str] is its sequence of Unicode code points;
    - a Python [dict] is an insertion-ordered association list with unique
      keys;
    - values of type [Any] are the values [json.loads] can produce;
    - the environment, the entropy source, the clock and the DynamoDB tables
      form an explicit [world] that is threaded through the handler;
    - exceptions are the left injection of a small error monad.

    The library functions the handler calls ([re.match], [json.loads],
    [json.dumps], [parse_qs], [base64.b64decode], [uuid.uuid4]) are modelled
    after CPython's documented behaviour, on unbounded integers and without a
    recursion limit. *)

From Stdlib Require Import ZArith NArith Ascii String List Lia Bool.
From stdpp Require Import gmap list.
Set Warnings "-register-all".
Import ListNotations.
Local Open Scope string_scope.
Local Open Scope list_scope.
Local Open Scope N_scope.

(** ** Strings *)

(** A Python [str]: a list of code points. *)
Abbreviation str := (list N).

(** ASCII literals of the source are written as Rocq strings. *)
Definition lit (s : string) : str := List.map N_of_ascii (list_ascii_of_string s).
Coercion lit : string >-> list.

Definition str_eqb (a b : str) : bool := bool_decide (a = b).

Fixpoint startswith (p s : str) : bool :=
  match p, s with
  | [], _ => true
  | a :: p', b :: s' => (a =? b) && startswith p' s'
  | _ :: _, [] => false
  end.

(** [needle in hay] on strings. *)
Fixpoint str_contains (needle hay : str) : bool :=
  startswith needle hay ||
  match hay with
  | [] => false
  | _ :: hay' => str_contains needle hay'
  end.

(** [s.split(sep)] for a one-character separator. *)
Fixpoint split_on (sep : N) (s : str) : list str :=
  match s with
  | [] => [[]]
  | c :: s' =>
      if c =? sep then [] :: split_on sep s'
      else match split_on sep s' with
           | [] => [[c]]
           | w :: ws => (c :: w) :: ws
           end
  end.

(** [s.split(sep, 1)]: [None] when [sep] does not occur. *)
Fixpoint split_once (sep : N) (s : str) : option (str * str) :=
  match s with
  | [] => None
  | c :: s' =>
      if c =? sep then Some ([], s')
      else match split_once sep s' with
           | Some (a, b) => Some (c :: a, b)
           | None => None
           end
  end.

(** [s.replace(a, b)] for single characters. *)
Definition replace_char (a b : N) (s : str) : str :=
  List.map (fun c => if c =? a then b else c) s.

Definition hex_digit (d : N) : N :=
  if d <? 10 then 48 + d else 87 + d.

Definition hex_value (c : N) : option N :=
  if (48 <=? c) && (c <=? 57) then Some (c - 48)
  else if (97 <=? c) && (c <=? 102) then Some (c - 87)
  else if (65 <=? c) && (c <=? 70) then Some (c - 55)
  else None.

(** The [width] low hexadecimal digits of [n], most significant first
    (Python's ["%0<width>x" % n] for [n < 16 ^ width]). *)
Fixpoint hex_fixed (width : nat) (n : N) : str :=
  match width with
  | O => []
  | S w => hex_fixed w (N.shiftr n 4) ++ [hex_digit (N.land n 15)]
  end.

Fixpoint dec_digits (fuel : nat) (n : N) : str :=
  match fuel with
  | O => []
  | S f => if n <? 10 then [48 + n]
           else dec_digits f (n / 10) ++ [48 + n mod 10]
  end.

(** [str(n)] for a natural number. *)
Definition dec_of_N (n : N) : str := dec_digits (S (N.to_nat (N.log2 n))) n.

(** [str(z)] for an [int]. *)
Definition dec_of_Z (z : Z) : str :=
  match z with
  | Zneg p => 45 :: dec_of_N (Npos p)
  | _ => dec_of_N (Z.to_N z)
  end.

(** ** Dictionaries *)

(** A Python [dict] with [str] keys: insertion-ordered, keys unique. *)
Definition dict (V : Type) : Type := list (str * V).

Fixpoint dict_get {V} (k : str) (d : dict V) : option V :=
  match d with
  | [] => None
  | (k', v) :: d' => if str_eqb k k' then Some v else dict_get k d'
  end.

(** [d[k] = v]: overwrite in place, or append a new key. *)
Fixpoint dict_set {V} (k : str) (v : V) (d : dict V) : dict V :=
  match d with
  | [] => [(k, v)]
  | (k', v') :: d' =>
      if str_eqb k k' then (k', v) :: d' else (k', v') :: dict_set k v d'
  end.

(** [dict(pairs)]: later pairs overwrite earlier ones. *)
Definition dict_of_pairs {V} (kvs : list (str * V)) : dict V :=
  fold_left (fun d kv => dict_set (fst kv) (snd kv) d) kvs [].

Definition dict_keys {V} (d : dict V) : list str := List.map fst d.

(** ** Values of type [Any] *)

(** A [float] as [json.loads] reads it: the decimal literal
    [(-1)^neg * mant * 10^exp10], or one of the three special constants. *)
Inductive pyfloat :=
| FDec (neg : bool) (mant : N) (exp10 : Z)
| FNaN
| FInf (neg : bool).

Inductive pyval :=
| PyNone
| PyBool (b : bool)
| PyInt (z : Z)
| PyFloat (f : pyfloat)
| PyStr (s : str)
| PyList (l : list pyval)
| PyDict (d : list (str * pyval)).

(** A decimal literal denotes the double [0.0] exactly when its magnitude is
    at most [2^-1075], half the smallest subnormal (ties go to even). *)
Definition float_is_zero (f : pyfloat) : bool :=
  match f with
  | FDec _ mant e =>
      (mant =? 0) ||
      match e with
      | Zneg p => mant * 2 ^ 1075 <=? 10 ^ Npos p
      | _ => false
      end
  | FNaN | FInf _ => false
  end.

(** Python truthiness: [bool(v)]. *)
Definition truthy (v : pyval) : bool :=
  match v with
  | PyNone => false
  | PyBool b => b
  | PyInt z => negb (z =? 0)%Z
  | PyFloat f => negb (float_is_zero f)
  | PyStr s => match s with [] => false | _ => true end
  | PyList l => match l with [] => false | _ => true end
  | PyDict d => match d with [] => false | _ => true end
  end.

(** [v is None], for the result of [payload.get(k)]. *)
Definition is_none (v : pyval) : bool :=
  match v with PyNone => true | _ => false end.

(** [payload.get(k)]: the value, or [None] when the key is absent. *)
Definition py_get (k : str) (d : dict pyval) : pyval :=
  match dict_get k d with
  | Some v => v
  | None => PyNone
  end.

(** [a or b] on optional strings, as used on header values and the body:
    an absent, [None] or empty left operand yields the right one. *)
Definition nonempty (o : option str) : option str :=
  match o with
  | Some (c :: s) => Some (c :: s)
  | _ => None
  end.

Definition or_else (o : option str) (dflt : option str) : option str :=
  match nonempty o with
  | Some s => Some s
  | None => dflt
  end.

(** ** Exceptions *)

(** The handler distinguishes three families in its [except] clauses.
    [binascii.Error], [UnicodeDecodeError] and [json.JSONDecodeError] are
    subclasses of [ValueError]; each exception carries its [str()] text. *)
Inductive exn :=
| ValueError (msg : str)
| ClientError (msg : str)
| OtherError (msg : str).

Definition exn_text (e : exn) : str :=
  match e with
  | ValueError m | ClientError m | OtherError m => m
  end.

Inductive result (A : Type) :=
| Ok (a : A)
| Raise (e : exn).
Arguments Ok {A} a.
Arguments Raise {A} e.

Definition bind {A B} (r : result A) (k : A -> result B) : result B :=
  match r with
  | Ok a => k a
  | Raise e => Raise e
  end.

Notation "'do' x <- r ; k" := (bind r (fun x => k))
  (at level 10, x pattern, r at level 100, k at level 200).

(** ** Regular expressions: the fragment of [re] the source uses *)

Definition is_space (c : N) : bool :=
  ((9 <=? c) && (c <=? 13)) || ((28 <=? c) && (c <=? 32)) ||
  (c =? 133) || (c =? 160) || (c =? 5760) ||
  ((8192 <=? c) && (c <=? 8202)) || (c =? 8232) || (c =? 8233) ||
  (c =? 8239) || (c =? 8287) || (c =? 12288).

Inductive cls_item :=
| CChar (c : N)        (* a literal character *)
| CSpace.              (* [\s] *)

Definition cls_item_ok (i : cls_item) (c : N) : bool :=
  match i with
  | CChar a => c =? a
  | CSpace => is_space c
  end.

Inductive atom :=
| Chr (c : N)                       (* a literal character, e.g. [@] or [\.] *)
| NotIn (items : list cls_item).    (* a negated set [[^...]] *)

Definition atom_ok (a : atom) (c : N) : bool :=
  match a with
  | Chr x => c =? x
  | NotIn items => negb (existsb (fun i => cls_item_ok i c) items)
  end.

Inductive node :=
| Bol                  (* [^] *)
| Eol                  (* [$]: the end, or just before a final newline *)
| Eos                  (* [\Z]: the end of the string only *)
| One (a : atom)
| Many1 (a : atom).    (* [a+] *)

Definition regex := list node.

(** Does [r] match a prefix of [s]?  [at0] tells whether [s] starts at
    position 0 of the subject. *)
Fixpoint re_run (r : regex) (at0 : bool) (s : str) {struct r} : bool :=
  match r with
  | [] => true
  | Bol :: r' => at0 && re_run r' at0 s
  | Eol :: r' =>
      match s with
      | [] | [10] => re_run r' at0 s
      | _ => false
      end
  | Eos :: r' =>
      match s with
      | [] => re_run r' at0 s
      | _ => false
      end
  | One a :: r' =>
      match s with
      | c :: s' => atom_ok a c && re_run r' false s'
      | [] => false
      end
  | Many1 a :: r' =>
      (fix many (s : str) : bool :=
         match s with
         | c :: s' => atom_ok a c && (many s' || re_run r' false s')
         | [] => false
         end) s
  end.

(** [re.match(pattern, s) is not None]. *)
Definition re_match (pattern : regex) (s : str) : bool := re_run pattern true s.

(** ** UTF-8 decoding of a byte string *)

Inductive utf8_fault := BadStart | BadCont | Truncated.

Definition utf8_fault_text (f : utf8_fault) : str :=
  match f with
  | BadStart => "invalid start byte"
  | BadCont => "invalid continuation byte"
  | Truncated => "unexpected end of data"
  end.

(** One decoding step: a code point, or the maximal ill-formed prefix. *)
Inductive utf8_step :=
| UChar (cp : N) (rest : list N)
| UBad (len : N) (why : utf8_fault) (rest : list N).

Definition between (lo hi b : N) : bool := (lo <=? b) && (b <=? hi).

Definition cont_bits (b : N) : N := N.land b 63.

(** The range of the second byte, by leading byte (Unicode table 3-7). *)
Definition second_range (b0 : N) : N * N :=
  if b0 =? 224 then (160, 191)
  else if b0 =? 237 then (128, 159)
  else if b0 =? 240 then (144, 191)
  else if b0 =? 244 then (128, 143)
  else (128, 191).

Definition utf8_next (b0 : N) (r : list N) : utf8_step :=
  if b0 <? 128 then UChar b0 r
  else if between 194 223 b0 then
    match r with
    | [] => UBad 1 Truncated []
    | b1 :: r1 =>
        if between 128 191 b1
        then UChar (N.lor (N.shiftl (N.land b0 31) 6) (cont_bits b1)) r1
        else UBad 1 BadCont r
    end
  else if between 224 239 b0 then
    match r with
    | [] => UBad 1 Truncated []
    | b1 :: r1 =>
        let '(lo, hi) := second_range b0 in
        if between lo hi b1 then
          match r1 with
          | [] => UBad 2 Truncated []
          | b2 :: r2 =>
              if between 128 191 b2
              then UChar (N.lor (N.shiftl (N.land b0 15) 12)
                            (N.lor (N.shiftl (cont_bits b1) 6) (cont_bits b2))) r2
              else UBad 2 BadCont r1
          end
        else UBad 1 BadCont r
    end
  else if between 240 244 b0 then
    match r with
    | [] => UBad 1 Truncated []
    | b1 :: r1 =>
        let '(lo, hi) := second_range b0 in
        if between lo hi b1 then
          match r1 with
          | [] => UBad 2 Truncated []
          | b2 :: r2 =>
              if between 128 191 b2 then
                match r2 with
                | [] => UBad 3 Truncated []
                | b3 :: r3 =>
                    if between 128 191 b3
                    then UChar (N.lor (N.shiftl (N.land b0 7) 18)
                                  (N.lor (N.shiftl (cont_bits b1) 12)
                                     (N.lor (N.shiftl (cont_bits b2) 6) (cont_bits b3)))) r3
                    else UBad 3 BadCont r2
                end
              else UBad 2 BadCont r1
          end
        else UBad 1 BadCont r
    end
  else UBad 1 BadStart r.

(** [bs.decode("utf-8", "replace")]: every maximal ill-formed prefix
    becomes U+FFFD. *)
Fixpoint utf8_replace (fuel : nat) (bs : list N) : str :=
  match fuel, bs with
  | S f, b0 :: r =>
      match utf8_next b0 r with
      | UChar cp rest => cp :: utf8_replace f rest
      | UBad _ _ rest => 65533 :: utf8_replace f rest
      end
  | _, _ => []
  end.

Definition decode_utf8_replace (bs : list N) : str :=
  utf8_replace (length bs) bs.

Definition utf8_error_text (b0 pos len : N) (why : utf8_fault) : str :=
  (if len =? 1
   then "'utf-8' codec can't decode byte 0x" ++ hex_fixed 2 b0 ++
        " in position " ++ dec_of_N pos
   else "'utf-8' codec can't decode bytes in position " ++ dec_of_N pos ++
        "-" ++ dec_of_N (pos + len - 1)) ++ ": " ++ utf8_fault_text why.

(** [bs.decode("utf-8")]: the first ill-formed prefix raises
    [UnicodeDecodeError]. *)
Fixpoint utf8_strict (fuel : nat) (pos : N) (bs : list N) : result str :=
  match fuel, bs with
  | S f, b0 :: r =>
      match utf8_next b0 r with
      | UChar cp rest =>
          do s <- utf8_strict f (pos + N.of_nat (length bs - length rest)) rest;
          Ok (cp :: s)
      | UBad len why _ => Raise (ValueError (utf8_error_text b0 pos len why))
      end
  | _, _ => Ok []
  end.

Definition decode_utf8 (bs : list N) : result str :=
  utf8_strict (length bs) 0 bs.

(** ** [base64.b64decode] *)

Definition b64_value (c : N) : option N :=
  if between 65 90 c then Some (c - 65)
  else if between 97 122 c then Some (c - 71)
  else if between 48 57 c then Some (c + 4)
  else if c =? 43 then Some 62
  else if c =? 47 then Some 63
  else None.

(** The scanner state of [binascii.a2b_base64]: position in the current
    quad, pending bits, padding seen in a row, bytes produced. *)
Record b64_state := {
  quad_pos : N;
  leftchar : N;
  pads : N;
  out : list N
}.

Inductive b64_scan :=
| Scanning (st : b64_state)
| Finished (bytes : list N).

Definition b64_feed (st : b64_state) (c : N) : b64_scan :=
  if c =? 61 then
    if (2 <=? quad_pos st) && (4 <=? quad_pos st + (pads st + 1))
    then Finished (out st)
    else Scanning
           {| quad_pos := quad_pos st; leftchar := leftchar st;
              pads := if 2 <=? quad_pos st then pads st + 1 else pads st;
              out := out st |}
  else
    match b64_value c with
    | None => Scanning st
    | Some v =>
        if quad_pos st =? 0 then
          Scanning {| quad_pos := 1; leftchar := v; pads := 0; out := out st |}
        else if quad_pos st =? 1 then
          Scanning {| quad_pos := 2; leftchar := N.land v 15; pads := 0;
                      out := out st ++ [N.lor (N.shiftl (leftchar st) 2) (N.shiftr v 4)] |}
        else if quad_pos st =? 2 then
          Scanning {| quad_pos := 3; leftchar := N.land v 3; pads := 0;
                      out := out st ++ [N.lor (N.shiftl (leftchar st) 4) (N.shiftr v 2)] |}
        else
          Scanning {| quad_pos := 0; leftchar := 0; pads := 0;
                      out := out st ++ [N.lor (N.shiftl (leftchar st) 6) v] |}
    end.

Fixpoint b64_loop (st : b64_state) (s : str) : result (list N) :=
  match s with
  | [] =>
      if quad_pos st =? 0 then Ok (out st)
      else if quad_pos st =? 1 then
        Raise (ValueError
                 ("Invalid base64-encoded string: number of data characters (" ++
                  dec_of_N (N.of_nat (length (out st)) / 3 * 4 + 1) ++
                  ") cannot be 1 more than a multiple of 4"))
      else Raise (ValueError "Incorrect padding")
  | c :: s' =>
      match b64_feed st c with
      | Scanning st' => b64_loop st' s'
      | Finished bytes => Ok bytes
      end
  end.

(** [base64.b64decode(s)] on a [str] argument. *)
Definition b64decode (s : str) : result (list N) :=
  if forallb (fun c => c <? 128) s
  then b64_loop {| quad_pos := 0; leftchar := 0; pads := 0; out := [] |} s
  else Raise (ValueError "string argument should contain only ASCII characters").

(** ** [urllib.parse.parse_qs] *)

(** [unquote_to_bytes] on an ASCII run: [%XY] becomes one byte. *)
Fixpoint unquote_to_bytes (s : str) : list N :=
  match s with
  | [] => []
  | c :: s' =>
      if c =? 37 then
        match s' with
        | h1 :: h2 :: s'' =>
            match hex_value h1, hex_value h2 with
            | Some a, Some b => (16 * a + b) :: unquote_to_bytes s''
            | _, _ => 37 :: unquote_to_bytes s'
            end
        | _ => 37 :: unquote_to_bytes s'
        end
      else c :: unquote_to_bytes s'
  end.

(** Percent-decode each maximal ASCII run; other characters pass through. *)
Fixpoint unquote_runs (run : str) (s : str) : str :=
  match s with
  | [] => decode_utf8_replace (unquote_to_bytes run)
  | c :: s' =>
      if c <? 128 then unquote_runs (run ++ [c]) s'
      else decode_utf8_replace (unquote_to_bytes run) ++ c :: unquote_runs [] s'
  end.

Definition unquote (s : str) : str :=
  if existsb (N.eqb 37) s then unquote_runs [] s else s.

Definition parse_qsl_field (name_value : str) : list (str * str) :=
  match name_value with
  | [] => []
  | _ =>
      match split_once 61 name_value with
      | None => []
      | Some (n, v) =>
          match v with
          | [] => []
          | _ => [(unquote (replace_char 43 32 n), unquote (replace_char 43 32 v))]
          end
      end
  end.

(** [parse_qsl(qs)] with its defaults: separator [&], blank values dropped,
    lenient parsing. *)
Definition parse_qsl (qs : str) : list (str * str) :=
  flat_map parse_qsl_field (split_on 38 qs).

Definition qs_add (d : dict (list str)) (nv : str * str) : dict (list str) :=
  match dict_get (fst nv) d with
  | Some vs => dict_set (fst nv) (vs ++ [snd nv]) d
  | None => dict_set (fst nv) [snd nv] d
  end.

Definition parse_qs (qs : str) : dict (list str) :=
  fold_left qs_add (parse_qsl qs) [].

(** ** [json.loads] *)

(** What [json.loads] depends on besides its argument: the room the
    interpreter's stack leaves for nested containers (the scanner enters a
    recursive call for every array and object it opens, and the interpreter
    raises [RecursionError] beyond its recursion limit), and the limit on
    the digits of an integer literal ([sys.get_int_max_str_digits()], 4300
    by default; 0 switches the check off). *)
Record interpreter := {
  nesting_limit : nat;
  int_max_str_digits : nat
}.

Inductive container := JsonArray | JsonObject.

(** The ways in which scanning fails: [json.JSONDecodeError], the
    [RecursionError] of a container opened beyond the nesting limit, the
    [ValueError] of [int] on a literal of too many digits. *)
Inductive scan_error :=
| Malformed
| TooDeep (c : container)
| TooManyDigits (digits : nat).

Inductive scanned :=
| Scanned (v : pyval) (rest : str)
| Failed (e : scan_error).

Inductive decoded :=
| Decoded (v : pyval)
| Undecoded (e : scan_error).

(** Literals of up to 640 digits are never checked
    ([sys.int_info.str_digits_check_threshold]). *)
Definition int_too_long (py : interpreter) (digits : nat) : bool :=
  (640 <? digits)%nat && (0 <? int_max_str_digits py)%nat &&
  (int_max_str_digits py <? digits)%nat.

Definition is_digit (c : N) : bool := between 48 57 c.

Definition is_json_ws (c : N) : bool :=
  (c =? 32) || (c =? 9) || (c =? 10) || (c =? 13).

Fixpoint skip_ws (s : str) : str :=
  match s with
  | c :: s' => if is_json_ws c then skip_ws s' else s
  | [] => []
  end.

(** The longest prefix of decimal digits, and what follows it. *)
Fixpoint span_digits (s : str) : str * str :=
  match s with
  | c :: s' =>
      if is_digit c
      then let '(ds, r) := span_digits s' in (c :: ds, r)
      else ([], s)
  | [] => ([], [])
  end.

Definition digits_value (ds : str) : N :=
  fold_left (fun acc c => 10 * acc + (c - 48)) ds 0.

Definition hex4 (a b c d : N) : option N :=
  match hex_value a, hex_value b, hex_value c, hex_value d with
  | Some x, Some y, Some z, Some w => Some (((x * 16 + y) * 16 + z) * 16 + w)
  | _, _, _, _ => None
  end.

Definition simple_escape (e : N) : option N :=
  if e =? 34 then Some 34          (* quote *)
  else if e =? 92 then Some 92     (* backslash *)
  else if e =? 47 then Some 47     (* slash *)
  else if e =? 98 then Some 8      (* b *)
  else if e =? 102 then Some 12    (* f *)
  else if e =? 110 then Some 10    (* n *)
  else if e =? 114 then Some 13    (* r *)
  else if e =? 116 then Some 9     (* t *)
  else None.

Definition is_high_surrogate (c : N) : bool := between 55296 56319 c.
Definition is_low_surrogate (c : N) : bool := between 56320 57343 c.

Definition join_surrogates (hi lo : N) : N :=
  65536 + N.lor (N.shiftl (N.land hi 1023) 10) (N.land lo 1023).

Definition cons_fst (c : N) (r : option (str * str)) : option (str * str) :=
  match r with
  | Some (s, rest) => Some (c :: s, rest)
  | None => None
  end.

(** The body of a string literal, after the opening quote (strict mode:
    raw control characters are refused). *)
Fixpoint scan_string (s : str) : option (str * str) :=
  match s with
  | [] => None
  | c :: r =>
      if c =? 34 then Some ([], r)
      else if c =? 92 then
        match r with
        | [] => None
        | e :: r1 =>
            if e =? 117 then
              match r1 with
              | h1 :: h2 :: h3 :: h4 :: r2 =>
                  match hex4 h1 h2 h3 h4 with
                  | None => None
                  | Some cp =>
                      match r2 with
                      | b :: u :: l1 :: l2 :: l3 :: l4 :: r3 =>
                          match hex4 l1 l2 l3 l4 with
                          | Some lo =>
                              if (b =? 92) && (u =? 117) &&
                                 is_high_surrogate cp && is_low_surrogate lo
                              then cons_fst (join_surrogates cp lo) (scan_string r3)
                              else cons_fst cp (scan_string r2)
                          | None => cons_fst cp (scan_string r2)
                          end
                      | _ => cons_fst cp (scan_string r2)
                      end
                  end
              | _ => None
              end
            else
              match simple_escape e with
              | Some x => cons_fst x (scan_string r1)
              | None => None
              end
        end
      else if c <? 32 then None
      else cons_fst c (scan_string r)
  end.

(** The fraction of a number: [.] and at least one digit. *)
Definition scan_frac (s : str) : option (str * str) :=
  match s with
  | c :: r =>
      if c =? 46 then
        match span_digits r with
        | ([], _) => None
        | (ds, r') => Some (ds, r')
        end
      else None
  | [] => None
  end.

(** The exponent of a number: [e] or [E], a sign, at least one digit. *)
Definition scan_exp (s : str) : option (Z * str) :=
  match s with
  | c :: r =>
      if (c =? 101) || (c =? 69) then
        let '(negative, r1) :=
          match r with
          | sign :: r1 =>
              if sign =? 45 then (true, r1)
              else if sign =? 43 then (false, r1)
              else (false, r)
          | [] => (false, r)
          end in
        match span_digits r1 with
        | ([], _) => None
        | (ds, r') =>
            Some (if negative then (- Z.of_N (digits_value ds))%Z
                  else Z.of_N (digits_value ds), r')
        end
      else None
  | [] => None
  end.

(** A number after its optional sign: [0] or a run of digits not starting
    with [0], then an optional fraction and an optional exponent.  Without
    either it is an [int], converted by [int] under the interpreter's digit
    limit; otherwise a [float]. *)
Definition scan_number (py : interpreter) (negative : bool) (s : str) : scanned :=
  let int_part :=
    match s with
    | c :: r =>
        if c =? 48 then Some ([48], r)
        else if is_digit c then Some (span_digits s)
        else None
    | [] => None
    end in
  match int_part with
  | None => Failed Malformed
  | Some (ds, r) =>
      let '(frac, r1) :=
        match scan_frac r with
        | Some (fs, r1) => (Some fs, r1)
        | None => (None, r)
        end in
      let '(ex, r2) :=
        match scan_exp r1 with
        | Some (e, r2) => (Some e, r2)
        | None => (None, r1)
        end in
      match frac, ex with
      | None, None =>
          if int_too_long py (length ds) then Failed (TooManyDigits (length ds))
          else
            Scanned (PyInt (if negative then - Z.of_N (digits_value ds)
                            else Z.of_N (digits_value ds))%Z) r2
      | _, _ =>
          let fs := match frac with Some fs => fs | None => [] end in
          let e := match ex with Some e => e | None => 0%Z end in
          Scanned (PyFloat (FDec negative (digits_value (ds ++ fs))
                              (e - Z.of_nat (length fs))%Z)) r2
      end
  end.

Definition strip_prefix (p s : str) : option str :=
  if startswith p s then Some (skipn (length p) s) else None.

(** The rest of [s] after the character [c], if [s] starts with it. *)
Definition expect (c : N) (s : str) : option str :=
  match s with
  | x :: r => if x =? c then Some r else None
  | [] => None
  end.

(** The scanner: one JSON value at the head of [s], with [depth] containers
    still allowed to be opened.  The check comes first at every [{] and
    [[], as in the C scanner. *)
Fixpoint scan_value (py : interpreter) (fuel depth : nat) (s : str) : scanned :=
  match fuel with
  | O => Failed Malformed
  | S f =>
      match s with
      | [] => Failed Malformed
      | c :: r =>
          if c =? 34 then
            match scan_string r with
            | Some (x, r') => Scanned (PyStr x) r'
            | None => Failed Malformed
            end
          else if c =? 123 then
            match depth with
            | O => Failed (TooDeep JsonObject)
            | S d =>
                match expect 125 (skip_ws r) with
                | Some r' => Scanned (PyDict []) r'
                | None => scan_members py f d [] (skip_ws r)
                end
            end
          else if c =? 91 then
            match depth with
            | O => Failed (TooDeep JsonArray)
            | S d =>
                match expect 93 (skip_ws r) with
                | Some r' => Scanned (PyList []) r'
                | None => scan_elems py f d [] (skip_ws r)
                end
            end
          else
            match strip_prefix "null" s, strip_prefix "true" s,
                  strip_prefix "false" s, strip_prefix "NaN" s,
                  strip_prefix "Infinity" s, strip_prefix "-Infinity" s with
            | Some r', _, _, _, _, _ => Scanned PyNone r'
            | _, Some r', _, _, _, _ => Scanned (PyBool true) r'
            | _, _, Some r', _, _, _ => Scanned (PyBool false) r'
            | _, _, _, Some r', _, _ => Scanned (PyFloat FNaN) r'
            | _, _, _, _, Some r', _ => Scanned (PyFloat (FInf false)) r'
            | _, _, _, _, _, Some r' => Scanned (PyFloat (FInf true)) r'
            | _, _, _, _, _, _ =>
                if c =? 45 then scan_number py true r else scan_number py false s
            end
      end
  end

with scan_elems (py : interpreter) (fuel depth : nat) (acc : list pyval) (s : str)
    : scanned :=
  match fuel with
  | O => Failed Malformed
  | S f =>
      match scan_value py f depth s with
      | Failed e => Failed e
      | Scanned v r =>
          match expect 44 (skip_ws r), expect 93 (skip_ws r) with
          | Some r', _ => scan_elems py f depth (acc ++ [v]) (skip_ws r')
          | None, Some r' => Scanned (PyList (acc ++ [v])) r'
          | None, None => Failed Malformed
          end
      end
  end

with scan_members (py : interpreter) (fuel depth : nat) (acc : list (str * pyval))
    (s : str) : scanned :=
  match fuel with
  | O => Failed Malformed
  | S f =>
      match expect 34 s with
      | None => Failed Malformed
      | Some r =>
          match scan_string r with
          | None => Failed Malformed
          | Some (k, r1) =>
              match expect 58 (skip_ws r1) with
              | None => Failed Malformed
              | Some r2 =>
                  match scan_value py f depth (skip_ws r2) with
                  | Failed e => Failed e
                  | Scanned v r3 =>
                      match expect 44 (skip_ws r3), expect 125 (skip_ws r3) with
                      | Some r4, _ =>
                          scan_members py f depth (acc ++ [(k, v)]) (skip_ws r4)
                      | None, Some r4 =>
                          Scanned (PyDict (dict_of_pairs (acc ++ [(k, v)]))) r4
                      | None, None => Failed Malformed
                      end
                  end
              end
          end
      end
  end.

(** [json.loads(s)] under the interpreter [py].  Two nested scanner calls
    never follow each other without a character being consumed, so twice
    the length of the input is fuel enough ([json_loads_fuel]). *)
Definition json_loads (py : interpreter) (s : str) : decoded :=
  match scan_value py (2 * length s + 2) (nesting_limit py) (skip_ws s) with
  | Scanned v r =>
      match skip_ws r with
      | [] => Decoded v
      | _ => Undecoded Malformed
      end
  | Failed e => Undecoded e
  end.

(** [str(e)] of the two exceptions other than [JSONDecodeError]. *)
Definition recursion_error_text (c : container) : str :=
  "maximum recursion depth exceeded while decoding a JSON " ++
  match c with JsonArray => lit "array" | JsonObject => lit "object" end ++
  " from a unicode string".

Definition int_digits_error_text (py : interpreter) (digits : nat) : str :=
  "Exceeds the limit (" ++ dec_of_N (N.of_nat (int_max_str_digits py)) ++
  " digits) for integer string conversion: value has " ++
  dec_of_N (N.of_nat digits) ++
  " digits; use sys.set_int_max_str_digits() to increase the limit".

(** ** [json.dumps] on a flat dictionary of strings *)

Definition json_escape_char (c : N) : str :=
  if c =? 34 then [92; 34]
  else if c =? 92 then [92; 92]
  else if c =? 10 then [92; 110]
  else if c =? 13 then [92; 114]
  else if c =? 9 then [92; 116]
  else if c =? 8 then [92; 98]
  else if c =? 12 then [92; 102]
  else if between 32 126 c then [c]
  else if c <? 65536 then [92; 117] ++ hex_fixed 4 c
  else
    let n := c - 65536 in
    [92; 117] ++ hex_fixed 4 (N.lor 55296 (N.land (N.shiftr n 10) 1023)) ++
    [92; 117] ++ hex_fixed 4 (N.lor 56320 (N.land n 1023)).

(** A string literal with [ensure_ascii] on. *)
Definition json_string (s : str) : str :=
  [34] ++ flat_map json_escape_char s ++ [34].

Fixpoint join (sep : str) (parts : list str) : str :=
  match parts with
  | [] => []
  | [p] => p
  | p :: ps => p ++ sep ++ join sep ps
  end.

Definition json_dumps (d : dict str) : str :=
  "{" ++ join ", " (List.map (fun kv => json_string (fst kv) ++ ": " ++ json_string (snd kv)) d) ++ "}".

(** ** The world the handler runs in *)

(** A stored record: attribute name to string value. *)
Definition item := dict str.

(** A DynamoDB table: the name of its partition-key attribute and its
    records, indexed by the value of that attribute. *)
Record table := {
  key_attr : str;
  rows : gmap str item
}.

Record world := {
  environ : dict str;           (* os.environ *)
  urandom : nat -> N;           (* the successive 16-byte draws of os.urandom *)
  draws : nat;
  utc_clock : nat -> str;       (* the successive UTC readings, in ISO-8601 *)
  ticks : nat;
  tables : gmap str table;      (* DynamoDB *)
  put_calls : list (str * item);  (* every put_item request the store received *)
  outage : option exn;          (* a fault that makes every store call raise *)
  python : interpreter          (* the limits of the interpreter running the handler *)
}.

(** Stateful, fallible computations: the body of the handler's [try]. *)
Definition M (A : Type) : Type := world -> result A * world.

Definition ret {A} (a : A) : M A := fun w => (Ok a, w).

Definition throw {A} (e : exn) : M A := fun w => (Raise e, w).

Definition bindM {A B} (m : M A) (k : A -> M B) : M B :=
  fun w =>
    match m w with
    | (Ok a, w') => k a w'
    | (Raise e, w') => (Raise e, w')
    end.

Definition lift {A} (r : result A) : M A := fun w => (r, w).

Notation "'run' x <- m ; k" := (bindM m (fun x => k))
  (at level 10, x pattern, m at level 100, k at level 200).

(** [os.getenv(name)]. *)
Definition getenv (name : str) (w : world) : option str :=
  dict_get name (environ w).

(** [uuid.uuid4()]: 128 random bits with the version and variant fields
    overwritten. *)
Definition uuid4_int (r : N) : N :=
  N.lor (N.ldiff (N.lor (N.ldiff (r mod 2 ^ 128) (N.shiftl 49152 48))
                    (N.shiftl 32768 48))
           (N.shiftl 61440 64))
    (N.shiftl 4 76).

(** [str(u)] for a UUID: 8-4-4-4-12 lower-case hexadecimal digits. *)
Definition uuid_str (n : N) : str :=
  let h := hex_fixed 32 n in
  firstn 8 h ++ "-" ++ firstn 4 (skipn 8 h) ++ "-" ++ firstn 4 (skipn 12 h) ++
  "-" ++ firstn 4 (skipn 16 h) ++ "-" ++ skipn 20 h.

Definition uuid4 : M str :=
  fun w =>
    (Ok (uuid_str (uuid4_int (urandom w (draws w)))),
     {| environ := environ w; urandom := urandom w; draws := S (draws w);
        utc_clock := utc_clock w; ticks := ticks w; tables := tables w;
        put_calls := put_calls w; outage := outage w;
        python := python w |}).

(** [datetime.now(timezone.utc).isoformat()]: one reading of the clock. *)
Definition utcnow_isoformat : M str :=
  fun w =>
    (Ok (utc_clock w (ticks w)),
     {| environ := environ w; urandom := urandom w; draws := draws w;
        utc_clock := utc_clock w; ticks := S (ticks w); tables := tables w;
        put_calls := put_calls w; outage := outage w;
        python := python w |}).

(** *** The store *)

(** The condition expressions of [put_item] the source uses. *)
Inductive condition :=
| attribute_not_exists (attr : str).

(** A condition is evaluated on the record already stored under the key of
    the new one, if any. *)
Definition condition_holds (c : condition) (existing : option item) : bool :=
  match c, existing with
  | attribute_not_exists _, None => true
  | attribute_not_exists a, Some it =>
      match dict_get a it with
      | Some _ => false
      | None => true
      end
  end.

Definition client_error (code message : str) : exn :=
  ClientError ("An error occurred (" ++ code ++
               ") when calling the PutItem operation: " ++ message).

(** What [Table.put_item(Item=it, ConditionExpression=c)] does to the
    tables: the new tables, or the error the service answers. *)
Definition store_put (name : str) (it : item) (c : condition)
    (ts : gmap str table) : result (gmap str table) :=
  match ts !! name with
  | None =>
      Raise (client_error "ResourceNotFoundException" "Requested resource not found")
  | Some t =>
      match dict_get (key_attr t) it with
      | None =>
          Raise (client_error "ValidationException"
                   ("One or more parameter values were invalid: Missing the key " ++
                    key_attr t ++ " in the item"))
      | Some k =>
          if condition_holds c (rows t !! k)
          then Ok (<[name := {| key_attr := key_attr t; rows := <[k := it]> (rows t) |}]> ts)
          else Raise (client_error "ConditionalCheckFailedException"
                        "The conditional request failed")
      end
  end.

Definition put_item (name : str) (it : item) (c : condition) : M unit :=
  fun w =>
    let logged ts :=
      {| environ := environ w; urandom := urandom w; draws := draws w;
         utc_clock := utc_clock w; ticks := ticks w; tables := ts;
         put_calls := put_calls w ++ [(name, it)]; outage := outage w;
        python := python w |} in
    match outage w with
    | Some e => (Raise e, logged (tables w))
    | None =>
        match store_put name it c (tables w) with
        | Ok ts => (Ok tt, logged ts)
        | Raise e => (Raise e, logged (tables w))
        end
    end.

(** ** The request and the response *)

Record http_context := { method : option str }.

Record request_context := { http : option http_context }.

(** The Lambda proxy event, with the types API Gateway gives its fields:
    strings for the method, the header values and the body, objects for
    [headers], [requestContext] and [http].  [None] stands for an absent
    key; for [httpMethod], [headers] and [body] it also stands for a
    [null], which the source's [or] treats like an absent key.  A [null]
    under [requestContext] or [http] is not an event of this type (there
    the chained [.get] would fail on [None]). *)
Record event := {
  httpMethod : option str;
  requestContext : option request_context;
  headers : option (dict str);
  body : option str;
  isBase64Encoded : bool
}.

Module Response.
Record t := {
  statusCode : Z;
  headers : dict str;
  body : str
}.
End Response.

(** ** The handler: [lambda_user_form_handler.py] *)

Definition or_default (o : option str) (dflt : str) : str :=
  match nonempty o with
  | Some s => s
  | None => dflt
  end.

Definition _get_cors_headers (w : world) : dict str :=
  let allowed_origins :=
    match getenv "ALLOWED_ORIGINS" w with
    | Some v => v
    | None => lit "*"
    end in
  [ (lit "Access-Control-Allow-Origin", allowed_origins);
    (lit "Access-Control-Allow-Methods", lit "OPTIONS,POST");
    (lit "Access-Control-Allow-Headers", lit "Content-Type,Authorization");
    (lit "Access-Control-Max-Age", lit "86400") ].

Definition _response (w : world) (status_code : Z) (body : dict str) : Response.t :=
  {| Response.statusCode := status_code;
     Response.headers := _get_cors_headers w;
     Response.body := json_dumps body |}.

(** The source's pattern, [^[^@\s]+@[^@\s]+\.[^@\s]+$]. *)
Definition email_pattern : regex :=
  [ Bol; Many1 (NotIn [CChar 64; CSpace]); One (Chr 64);
    Many1 (NotIn [CChar 64; CSpace]); One (Chr 46);
    Many1 (NotIn [CChar 64; CSpace]); Eol ].

Definition _is_valid_email (email : str) : bool :=
  re_match email_pattern email.

(** [{k: v[0] if isinstance(v, list) and v else v for k, v in d.items()}]. *)
Definition first_values (d : dict (list str)) : dict pyval :=
  List.map (fun kv =>
              (fst kv,
               match snd kv with
               | x :: _ => PyStr x
               | [] => PyList []
               end)) d.

(** The local [content_type] of [_parse_body]: the header under the key
    [content-type], else under [Content-Type], else JSON. *)
Definition content_type (ev : event) : str :=
  let hs := match headers ev with Some h => h | None => [] end in
  or_default (or_else (dict_get "content-type" hs) (dict_get "Content-Type" hs))
    "application/json".

(** The local [raw_body] of [_parse_body], after the optional base64
    decoding. *)
Definition raw_body (ev : event) : result str :=
  let raw := or_default (body ev) [] in
  if isBase64Encoded ev
  then do bytes <- b64decode raw; decode_utf8 bytes
  else Ok raw.

(** [_parse_body(event)].  Only [json.JSONDecodeError] is caught around
    [json.loads]; the two other exceptions pass through as they are. *)
Definition _parse_body (py : interpreter) (ev : event) : result (dict pyval * str) :=
  let content_type := content_type ev in
  do raw_body <- raw_body ev;
  if str_contains "application/x-www-form-urlencoded" content_type then
    Ok (first_values (parse_qs raw_body), lit "form")
  else
    do parsed_json <-
      match raw_body with
      | [] => Ok (PyDict [])
      | _ =>
          match json_loads py raw_body with
          | Decoded v => Ok v
          | Undecoded Malformed => Raise (ValueError "Invalid JSON in request body")
          | Undecoded (TooDeep c) => Raise (OtherError (recursion_error_text c))
          | Undecoded (TooManyDigits n) => Raise (ValueError (int_digits_error_text py n))
          end
      end;
    match parsed_json with
    | PyDict d => Ok (d, lit "json")
    | _ => Raise (ValueError "Request JSON must be an object")
    end.

Definition _put_item (table_name : str) (it : item) : M unit :=
  put_item table_name it (attribute_not_exists "userId").

(** [event.get("httpMethod") or
     event.get("requestContext", {}).get("http", {}).get("method")]. *)
Definition request_method (ev : event) : option str :=
  or_else (httpMethod ev)
    match requestContext ev with
    | None => None
    | Some rc =>
        match http rc with
        | None => None
        | Some h => method h
        end
    end.

Definition is_options (ev : event) : bool :=
  match request_method ev with
  | Some m => str_eqb m "OPTIONS"
  | None => false
  end.

(** [{k: v for k, v in item.items() if v is not None}]. *)
Definition drop_none (d : dict (option str)) : item :=
  omap (fun kv => match snd kv with
                  | Some v => Some (fst kv, v)
                  | None => None
                  end) d.

Definition respond (status_code : Z) (body : dict str) : M Response.t :=
  fun w => (Ok (_response w status_code body), w).

Section Handler.

(** [str(v)] for a float, a list or a dict: the rendering of the Python
    runtime, which the handler only passes on. *)
Variable repr_structured : pyval -> str.

Definition py_str (v : pyval) : str :=
  match v with
  | PyNone => lit "None"
  | PyBool true => lit "True"
  | PyBool false => lit "False"
  | PyInt z => dec_of_Z z
  | PyStr s => s
  | PyFloat _ | PyList _ | PyDict _ => repr_structured v
  end.

(** The loop over [required_fields]: the first field whose value is
    falsy. *)
Fixpoint first_missing (required_fields : list str) (payload : dict pyval)
    : option str :=
  match required_fields with
  | [] => None
  | field :: rest =>
      if negb (truthy (py_get field payload)) then Some field
      else first_missing rest payload
  end.

Definition _validate_payload (payload : dict pyval) : bool * str :=
  match first_missing [lit "name"; lit "email"] payload with
  | Some field => (false, "Missing required field: " ++ field)
  | None =>
      if negb (_is_valid_email (py_str (py_get "email" payload)))
      then (false, lit "Invalid email format")
      else (true, [])
  end.

(** The record the handler builds (before and after the [None] values
    are removed). *)
Definition build_item (payload : dict pyval) (source_type user_id now_iso : str)
    : item :=
  drop_none
    [ (lit "userId", Some user_id);
      (lit "name", Some (py_str (py_get "name" payload)));
      (lit "email", Some (py_str (py_get "email" payload)));
      (lit "message",
        if negb (is_none (py_get "message" payload))
        then Some (py_str (py_get "message" payload)) else None);
      (lit "phone",
        if negb (is_none (py_get "phone" payload))
        then Some (py_str (py_get "phone" payload)) else None);
      (lit "sourceType", Some source_type);
      (lit "createdAt", Some now_iso);
      (lit "updatedAt", Some now_iso) ].

(** The body of the [try] statement. *)
Definition try_block (ev : event) (table_name : str) : M Response.t :=
  run (payload, source_type) <- (fun w => lift (_parse_body (python w) ev) w);
  let '(is_valid, error_msg) := _validate_payload payload in
  if negb is_valid then respond 400 [(lit "message", error_msg)]
  else
    run user_id <- uuid4;
    run now_iso <- utcnow_isoformat;
    let it := build_item payload source_type user_id now_iso in
    run _ <- _put_item table_name it;
    respond 201 [(lit "message", lit "Submitted"); (lit "userId", user_id)].

(** [lambda_handler(event, context)]; [context] is never read. *)
Definition lambda_handler (ev : event) (w : world) : Response.t * world :=
  if is_options ev then (_response w 204 [], w)
  else
    match nonempty (getenv "TABLE_NAME" w) with
    | None =>
        (_response w 500
           [(lit "message", lit "Server misconfiguration: TABLE_NAME is not set")], w)
    | Some table_name =>
        match try_block ev table_name w with
        | (Ok resp, w') => (resp, w')
        | (Raise (ValueError ve), w') =>
            (_response w' 400 [(lit "message", ve)], w')
        | (Raise (ClientError ce), w') =>
            (_response w' 500 [(lit "message", lit "DynamoDB error"); (lit "detail", ce)], w')
        | (Raise (OtherError ex), w') =>
            (_response w' 500
               [(lit "message", lit "Internal server error"); (lit "detail", ex)], w')
        end
    end.

End Handler.

(** ** The email shape of the specification *)

(** "One or more non-whitespace non-[@] characters, [@], one or more such
    characters, [.], one or more such characters", anchored at both ends of
    the string. *)
Definition anchored_email_pattern : regex :=
  [ Bol; Many1 (NotIn [CChar 64; CSpace]); One (Chr 64);
    Many1 (NotIn [CChar 64; CSpace]); One (Chr 46);
    Many1 (NotIn [CChar 64; CSpace]); Eos ].

Definition has_email_shape (email : str) : bool :=
  re_match anchored_email_pattern email.

(** ** Sample requests and worlds *)

(** JSON text written with single quotes in place of double quotes. *)
Definition dq (s : str) : str := replace_char 39 34 s.

(** A stand-in for the runtime's rendering of floats, lists and dicts; the
    sample requests carry none. *)
Definition sample_repr (v : pyval) : str := lit "<value>".

Definition leads_table : table := {| key_attr := lit "userId"; rows := ∅ |}.

(** An interpreter with CPython's default digit limit and with room for 980
    nested containers (the default recursion limit of 1000, less the frames
    in use when the scanner runs). *)
Definition sample_python : interpreter :=
  {| nesting_limit := 980; int_max_str_digits := 4300 |}.

Definition sample_world : world :=
  {| environ := [(lit "TABLE_NAME", lit "leads")];
     urandom := fun n => 12345678901234567890123456789012345678 + N.of_nat n;
     draws := 0;
     utc_clock := fun n => "2024-01-01T00:00:0" ++ dec_of_N (N.of_nat n mod 10) ++ "+00:00";
     ticks := 0;
     tables := {[ lit "leads" := leads_table ]};
     put_calls := [];
     outage := None;
     python := sample_python |}.

(** The same world without the [TABLE_NAME] setting. *)
Definition unconfigured_world : world :=
  {| environ := [];
     urandom := urandom sample_world; draws := 0;
     utc_clock := utc_clock sample_world; ticks := 0;
     tables := tables sample_world; put_calls := []; outage := None;
     python := sample_python |}.

Definition post (hs : option (dict str)) (b : str) : event :=
  {| httpMethod := Some (lit "POST"); requestContext := None;
     headers := hs; body := Some b; isBase64Encoded := false |}.

Definition form_type : str := "application/x-www-form-urlencoded".

Definition jo_json : str := dq "{'name':'Jo','email':'jo@example.com'}".

Definition jo_form : str := "name=Jo&email=jo%40example.com".

(** A preflight request as an HTTP API (payload format 2.0) delivers it. *)
Definition preflight : event :=
  {| httpMethod := None;
     requestContext := Some {| http := Some {| method := Some (lit "OPTIONS") |} |};
     headers := None; body := Some jo_json; isBase64Encoded := false |}.


(** All the values a query string carries under one key, in order. *)
Definition values_of (k : str) (pairs : list (str * str)) : list str :=
  List.map snd (List.filter (fun p => str_eqb k (fst p)) pairs).

Definition jo_fields : dict pyval :=
  [(lit "name", PyStr "Jo"); (lit "email", PyStr "jo@example.com")].

(** A form request whose body is flagged as base64 but is not base64. *)
Definition bad_base64_form : event :=
  {| httpMethod := Some (lit "POST"); requestContext := None;
     headers := Some [(lit "content-type", form_type)];
     body := Some (lit "abc"); isBase64Encoded := true |}.

(** The form body of [jo_form] sent as base64. *)
Definition jo_form_base64 : event :=
  {| httpMethod := Some (lit "POST"); requestContext := None;
     headers := Some [(lit "content-type", form_type)];
     body := Some (lit "bmFtZT1KbyZlbWFpbD1qbyU0MGV4YW1wbGUuY29t");
     isBase64Encoded := true |}.

(** A submission whose email ends in a newline (the JSON escape for it is
    written out in the body). *)
Definition newline_email : str := "a@b.c" ++ [10].

Definition newline_json : str := dq "{'name':'Jo','email':'a@b.c\n'}".

Definition newline_fields : dict pyval :=
  [(lit "name", PyStr "Jo"); (lit "email", PyStr newline_email)].

(** ** The shape of a version-4 UUID *)

Definition is_lower_hex (c : N) : bool := between 48 57 c || between 97 102 c.

(** 8-4-4-4-12 lower-case hexadecimal digits, the version digit [4] and a
    variant digit among [8], [9], [a], [b]. *)
Definition is_uuid4 (s : str) : bool :=
  match s with
  | [a1; a2; a3; a4; a5; a6; a7; a8; h1; b1; b2; b3; b4; h2; v; c1; c2; c3; h3;
     r; d1; d2; d3; h4; e1; e2; e3; e4; e5; e6; e7; e8; e9; e10; e11; e12] =>
      forallb is_lower_hex
        [a1; a2; a3; a4; a5; a6; a7; a8; b1; b2; b3; b4; c1; c2; c3; d1; d2; d3;
         e1; e2; e3; e4; e5; e6; e7; e8; e9; e10; e11; e12] &&
      forallb (N.eqb 45) [h1; h2; h3; h4] &&
      (v =? 52) &&
      existsb (N.eqb r) [56; 57; 97; 98]
  | _ => false
  end.

(** The [i]-th hexadecimal digit of [n], counted from the right. *)
Definition nibble (n : N) (i : N) : N := N.land (N.shiftr n (4 * i)) 15.

(** ** The outcome of a submission *)

(** The identifier the handler draws in world [w], and the time it reads. *)
Definition next_user_id (w : world) : str := uuid_str (uuid4_int (urandom w (draws w))).

Definition next_now_iso (w : world) : str := utc_clock w (ticks w).

(** The world after a run that drew one identifier, read the clock once and
    sent one [put_item] request, which left the tables as [ts]. *)
Definition after_submission (w : world) (ts : gmap str table) (tn : str) (it : item)
    : world :=
  {| environ := environ w; urandom := urandom w; draws := S (draws w);
     utc_clock := utc_clock w; ticks := S (ticks w); tables := ts;
     put_calls := put_calls w ++ [(tn, it)]; outage := outage w;
     python := python w |}.

(** One record written under key [k] of table [tn]; everything else as
    before. *)
Definition with_record (ts : gmap str table) (tn : str) (t : table) (k : str) (it : item)
    : gmap str table :=
  <[tn := {| key_attr := key_attr t; rows := <[k := it]> (rows t) |}]> ts.

(** The first identifier the sample world hands out, and a world whose table
    already holds a record under it. *)
Definition taken_id : str := next_user_id sample_world.

Definition collision_world : world :=
  {| environ := environ sample_world;
     urandom := urandom sample_world; draws := 0;
     utc_clock := utc_clock sample_world; ticks := 0;
     tables := {[ lit "leads" :=
                   {| key_attr := lit "userId";
                      rows := {[ taken_id := [(lit "userId", taken_id); (lit "name", lit "Al")] ]} |} ]};
     put_calls := []; outage := None;
     python := sample_python |}.






(** The errors of the base64 and UTF-8 decoders are [ValueError]s whose
    texts are not those of the two JSON errors. *)
Definition decoder_error (e : exn) : Prop :=
  exists m, e = ValueError m /\
    (m = lit "Incorrect padding" \/
     m = lit "string argument should contain only ASCII characters" \/
     (exists x, m = "Invalid base64-encoded string: number of data characters (" ++ x) \/
     (exists x, m = "'utf-8' codec can't decode byte" ++ x)).

(** Python's [re.match] with [$] against the anchored shape: the string
    without its final newline, if it ends in one. *)
Fixpoint chomp (s : str) : option str :=
  match s with
  | [] => None
  | [c] => if c =? 10 then Some [] else None
  | c :: s' => option_map (cons c) (chomp s')
  end.

(** Patterns without an end anchor. *)
Definition open_ended (r : regex) : bool :=
  forallb (fun n => match n with Eol | Eos => false | _ => true end) r.

(** [a+] followed by the continuation [k]. *)
Fixpoint many1 (a : atom) (k : str -> bool) (s : str) : bool :=
  match s with
  | c :: s' => atom_ok a c && (many1 a k s' || k s')
  | [] => false
  end.

(** With or without its final newline. *)
Definition upto_newline (k : str -> bool) (s : str) : bool :=
  k s || match chomp s with Some t => k t | None => false end.

(** ** The paths through the handler *)

(** The three [except] clauses of [lambda_handler]. *)
Definition error_response (w : world) (e : exn) : Response.t :=
  match e with
  | ValueError ve => _response w 400 [(lit "message", ve)]
  | ClientError ce =>
      _response w 500 [(lit "message", lit "DynamoDB error"); (lit "detail", ce)]
  | OtherError ex =>
      _response w 500 [(lit "message", lit "Internal server error"); (lit "detail", ex)]
  end.

(** What the store answers to the handler's conditional write. *)
Definition store_answer (w : world) (tn : str) (it : item) : result (gmap str table) :=
  match outage w with
  | Some e => Raise e
  | None => store_put tn it (attribute_not_exists "userId") (tables w)
  end.

(** One run of the handler, by the path it takes: the response and the
    world it leaves. *)
Inductive outcome (rs : pyval -> str) (ev : event) (w : world)
    : Response.t -> world -> Prop :=
| Preflight :
    is_options ev = true ->
    outcome rs ev w (_response w 204 []) w
| Unconfigured :
    is_options ev = false ->
    nonempty (getenv "TABLE_NAME" w) = None ->
    outcome rs ev w
      (_response w 500
         [(lit "message", lit "Server misconfiguration: TABLE_NAME is not set")]) w
| Unparsed tn e :
    is_options ev = false ->
    nonempty (getenv "TABLE_NAME" w) = Some tn ->
    _parse_body (python w) ev = Raise e ->
    outcome rs ev w (error_response w e) w
| Invalid tn payload tag msg :
    is_options ev = false ->
    nonempty (getenv "TABLE_NAME" w) = Some tn ->
    _parse_body (python w) ev = Ok (payload, tag) ->
    _validate_payload rs payload = (false, msg) ->
    outcome rs ev w (_response w 400 [(lit "message", msg)]) w
| Stored tn payload tag msg ts :
    is_options ev = false ->
    nonempty (getenv "TABLE_NAME" w) = Some tn ->
    _parse_body (python w) ev = Ok (payload, tag) ->
    _validate_payload rs payload = (true, msg) ->
    store_answer w tn (build_item rs payload tag (next_user_id w) (next_now_iso w)) = Ok ts ->
    outcome rs ev w
      (_response w 201 [(lit "message", lit "Submitted"); (lit "userId", next_user_id w)])
      (after_submission w ts tn
         (build_item rs payload tag (next_user_id w) (next_now_iso w)))
| Refused tn payload tag msg e :
    is_options ev = false ->
    nonempty (getenv "TABLE_NAME" w) = Some tn ->
    _parse_body (python w) ev = Ok (payload, tag) ->
    _validate_payload rs payload = (true, msg) ->
    store_answer w tn (build_item rs payload tag (next_user_id w) (next_now_iso w)) = Raise e ->
    outcome rs ev w (error_response w e)
      (after_submission w (tables w) tn
         (build_item rs payload tag (next_user_id w) (next_now_iso w))).

(** ** Tables and sequences of requests *)

(** Every record of the table is stored under the value of its own key
    attribute. *)
Definition keyed (t : table) : Prop :=
  forall k it, rows t !! k = Some it -> dict_get (key_attr t) it = Some k.

(** The Lambda runtime serving requests one after the other: the responses,
    in order, and the world left by the last run. *)
Fixpoint serve (rs : pyval -> str) (evs : list event) (w : world)
    : list Response.t * world :=
  match evs with
  | [] => ([], w)
  | ev :: evs' =>
      let '(resp, w1) := lambda_handler rs ev w in
      let '(resps, w2) := serve rs evs' w1 in
      (resp :: resps, w2)
  end.

(** A world whose table already holds one record, under another
    identifier than the next one drawn. *)
Definition al_record : item := [(lit "userId", lit "al"); (lit "name", lit "Al")].

Definition busy_world : world :=
  {| environ := environ sample_world;
     urandom := urandom sample_world; draws := 0;
     utc_clock := utc_clock sample_world; ticks := 0;
     tables := {[ lit "leads" :=
                   {| key_attr := lit "userId"; rows := {[ lit "al" := al_record ]} |} ]};
     put_calls := []; outage := None;
     python := sample_python |}.

(** ** The strings the email pattern accepts *)

(** Neither [@] nor a whitespace character. *)
Definition plain (c : N) : bool := atom_ok (NotIn [CChar 64; CSpace]) c.

(** [local@domain.tld]: three non-empty runs of plain characters, joined by
    an [@] and a dot (the domain and the last part may hold further dots). *)
Definition local_domain_tld (s : str) : Prop :=
  exists local domain tld,
    s = local ++ [64] ++ domain ++ [46] ++ tld /\
    local <> [] /\ domain <> [] /\ tld <> [] /\
    forallb plain local = true /\ forallb plain domain = true /\
    forallb plain tld = true.

(** ** More sample requests *)

(** The sample JSON body, base64-encoded and flagged as such. *)
Definition jo_base64 : event :=
  {| httpMethod := Some (lit "POST"); requestContext := None; headers := None;
     body := Some (lit "eyJuYW1lIjoiSm8iLCJlbWFpbCI6ImpvQGV4YW1wbGUuY29tIn0=");
     isBase64Encoded := true |}.

(** A [DELETE] request whose request context says [OPTIONS]. *)
Definition delete_request : event :=
  {| httpMethod := Some (lit "DELETE");
     requestContext := Some {| http := Some {| method := Some (lit "OPTIONS") |} |};
     headers := None; body := Some jo_json; isBase64Encoded := false |}.

(** The request [ev] as a plain [POST] without request context. *)
Definition as_post (ev : event) : event :=
  {| httpMethod := Some (lit "POST"); requestContext := None;
     headers := headers ev; body := body ev; isBase64Encoded := isBase64Encoded ev |}.

(** The request [ev] with the plain text [text] for a body. *)
Definition with_plain_body (text : str) (ev : event) : event :=
  {| httpMethod := httpMethod ev; requestContext := requestContext ev;
     headers := headers ev; body := Some text; isBase64Encoded := false |}.

(** * Properties *)

(** ** Auxiliary facts *)

Lemma str_eqb_eq (a b : str) : str_eqb a b = true <-> a = b.
Proof. unfold str_eqb. apply bool_decide_eq_true. Qed.

Lemma str_eqb_refl (a : str) : str_eqb a a = true.
Proof. by apply str_eqb_eq. Qed.

Lemma str_eqb_neq (a b : str) : a <> b -> str_eqb a b = false.
Proof. unfold str_eqb. apply bool_decide_eq_false. Qed.

Lemma nonempty_None (o : option str) :
  nonempty o = None <-> o = None \/ o = Some [].
Proof.
  destruct o as [[|c s]|]; simpl; split; intros H; try done; auto.
  destruct H as [H|H]; discriminate.
Qed.

Lemma nonempty_Some (o : option str) (s : str) :
  nonempty o = Some s <-> o = Some s /\ s <> [].
Proof.
  destruct o as [[|c t]|]; simpl; split; intros H; try done.
  - by destruct H as [[= <-] ?].
  - by injection H as <-.
  - by destruct H as [[= <-] ?].
  - by destruct H.
Qed.

(** ** The fuel of the JSON scanner *)

Lemma skip_ws_length (s : str) : (length (skip_ws s) <= length s)%nat.
Proof.
  induction s as [|c s IH]; simpl; [lia|].
  destruct (is_json_ws c); simpl; lia.
Qed.

Lemma expect_length (c : N) (s r : str) :
  expect c s = Some r -> length s = S (length r).
Proof.
  destruct s as [|x s]; simpl; [done|].
  destruct (x =? c)%N; [|done]. by intros [= ->].
Qed.

Lemma cons_fst_Some (c : N) (o : option (str * str)) (x r : str) :
  cons_fst c o = Some (x, r) -> exists x', o = Some (x', r).
Proof. destruct o as [[x' r']|]; simpl; [|done]. intros [= _ <-]. eauto. Qed.

Lemma scan_string_length (n : nat) (s x r : str) :
  (length s <= n)%nat -> scan_string s = Some (x, r) -> (length r < length s)%nat.
Proof.
  revert s x r. induction n as [|n IH]; intros s x r Hn.
  - destruct s; [done|simpl in Hn; lia].
  - destruct s as [|c s]; [done|]. simpl in Hn. cbn [scan_string].
    assert (Hrec : forall c' s' x' r', (length s' <= n)%nat ->
              cons_fst c' (scan_string s') = Some (x', r') -> (length r' < length s')%nat).
    { intros c' s' x' r' Hl H. apply cons_fst_Some in H as [y H]. by eapply IH. }
    repeat case_match; try done; subst; cbn [length] in *;
      try (intros [= _ <-]; cbn [length]; lia);
      (let Hs := fresh "Hs" in intros Hs; apply Hrec in Hs; cbn [length] in *; lia).
Qed.

Lemma span_digits_length (s ds r : str) :
  span_digits s = (ds, r) -> (length r <= length s)%nat.
Proof.
  revert ds r. induction s as [|c s IH]; intros ds r; simpl.
  - intros [= _ <-]. done.
  - destruct (is_digit c).
    + destruct (span_digits s) as [ds' r'] eqn:E. intros [= _ <-].
      specialize (IH _ _ eq_refl). lia.
    + intros [= _ <-]. simpl. lia.
Qed.

Lemma scan_frac_length (s ds r : str) :
  scan_frac s = Some (ds, r) -> (length r <= length s)%nat.
Proof.
  unfold scan_frac. destruct s as [|c s]; [done|].
  destruct (c =? 46)%N; [|done].
  destruct (span_digits s) as [ds' r'] eqn:E. apply span_digits_length in E.
  destruct ds'; [done|]. intros [= _ <-]. simpl. lia.
Qed.

Lemma scan_exp_length (s r : str) (e : Z) :
  scan_exp s = Some (e, r) -> (length r <= length s)%nat.
Proof.
  unfold scan_exp. destruct s as [|c s]; [done|].
  destruct ((c =? 101)%N || (c =? 69)%N); [|done].
  destruct s as [|sign s1].
  - simpl. done.
  - destruct (sign =? 45)%N; [|destruct (sign =? 43)%N];
      match goal with |- context [span_digits ?t] =>
        destruct (span_digits t) as [ds' r'] eqn:E end;
      apply span_digits_length in E; destruct ds'; try done;
      intros [= _ <-]; simpl in *; lia.
Qed.

Lemma scan_number_length (py : interpreter) (negative : bool) (s r : str) (v : pyval) :
  scan_number py negative s = Scanned v r -> (length r <= length s)%nat.
Proof.
  unfold scan_number.
  set (int_part := match s with [] => None | _ => _ end).
  assert (Hi : forall ds r0, int_part = Some (ds, r0) -> (length r0 <= length s)%nat).
  { subst int_part. intros ds r0. destruct s as [|c s']; [done|].
    destruct (c =? 48)%N; [intros [= _ <-]; simpl; lia|].
    destruct (is_digit c); [|done]. intros H.
    assert (H' : span_digits (c :: s') = (ds, r0)) by congruence.
    by apply span_digits_length in H'. }
  destruct int_part as [[ds r0]|]; [|done]. specialize (Hi _ _ eq_refl).
  destruct (scan_frac r0) as [[fs r1]|] eqn:Ef.
  - apply scan_frac_length in Ef.
    destruct (scan_exp r1) as [[e r2]|] eqn:Ee.
    + apply scan_exp_length in Ee. intros [= _ <-]. lia.
    + intros [= _ <-]. lia.
  - destruct (scan_exp r0) as [[e r2]|] eqn:Ee.
    + apply scan_exp_length in Ee. intros [= _ <-]. lia.
    + destruct (int_too_long py (length ds)); [done|]. intros [= _ <-]. lia.
Qed.

Lemma strip_prefix_length (p s r : str) :
  strip_prefix p s = Some r -> (length r <= length s)%nat.
Proof.
  unfold strip_prefix. destruct (startswith p s); [|done].
  intros [= <-]. rewrite length_skipn. lia.
Qed.

Lemma scan_length (py : interpreter) (f : nat) :
  (forall d s v r, scan_value py f d s = Scanned v r -> (length r <= length s)%nat) /\
  (forall d acc s v r, scan_elems py f d acc s = Scanned v r -> (length r <= length s)%nat) /\
  (forall d acc s v r, scan_members py f d acc s = Scanned v r -> (length r <= length s)%nat).
Proof.
  induction f as [|f (IHv & IHe & IHm)]; [by repeat split|].
  split; [|split].
  - intros d s v r. cbn [scan_value]. destruct s as [|c s']; [done|].
    pose proof (skip_ws_length s') as Hw.
    destruct (c =? 34)%N.
    { destruct (scan_string s') as [[x r']|] eqn:E; [|done].
      apply (scan_string_length _ _ _ _ (le_n _)) in E. intros [= _ <-]. simpl. lia. }
    destruct (c =? 123)%N.
    { destruct d as [|d]; [done|].
      destruct (expect 125 (skip_ws s')) as [r'|] eqn:E.
      - apply expect_length in E. intros [= _ <-]. simpl. lia.
      - intros H. apply IHm in H. simpl. lia. }
    destruct (c =? 91)%N.
    { destruct d as [|d]; [done|].
      destruct (expect 93 (skip_ws s')) as [r'|] eqn:E.
      - apply expect_length in E. intros [= _ <-]. simpl. lia.
      - intros H. apply IHe in H. simpl. lia. }
    repeat match goal with
           | |- context [strip_prefix ?p ?t] =>
               let E := fresh "E" in
               destruct (strip_prefix p t) eqn:E; [apply strip_prefix_length in E|]
           end;
      try (intros [= _ <-]; lia).
    destruct (c =? 45)%N; intros H; apply scan_number_length in H; cbn [length] in *; lia.
  - intros d acc s v r. cbn [scan_elems].
    destruct (scan_value py f d s) as [v' r'|] eqn:E; [|done]. apply IHv in E.
    pose proof (skip_ws_length r') as Hw.
    destruct (expect 44 (skip_ws r')) as [r1|] eqn:E1.
    + apply expect_length in E1. pose proof (skip_ws_length r1).
      intros Hs. apply IHe in Hs. lia.
    + destruct (expect 93 (skip_ws r')) as [r1|] eqn:E2; [|done].
      apply expect_length in E2. intros [= _ <-]. lia.
  - intros d acc s v r. cbn [scan_members].
    destruct (expect 34 s) as [r0|] eqn:E0; [|done]. apply expect_length in E0.
    destruct (scan_string r0) as [[k r1]|] eqn:E1; [|done].
    apply (scan_string_length _ _ _ _ (le_n _)) in E1.
    pose proof (skip_ws_length r1).
    destruct (expect 58 (skip_ws r1)) as [r2|] eqn:E2; [|done]. apply expect_length in E2.
    pose proof (skip_ws_length r2).
    destruct (scan_value py f d (skip_ws r2)) as [v' r3|] eqn:E3; [|done]. apply IHv in E3.
    pose proof (skip_ws_length r3).
    destruct (expect 44 (skip_ws r3)) as [r4|] eqn:E4.
    + apply expect_length in E4. pose proof (skip_ws_length r4).
      intros Hs. apply IHm in Hs. lia.
    + destruct (expect 125 (skip_ws r3)) as [r4|] eqn:E5; [|done].
      apply expect_length in E5. intros [= _ <-]. lia.
Qed.

(** Beyond twice the length of the input the scanner no longer depends on
    its fuel. *)
Lemma scan_fuel (py : interpreter) (f : nat) :
  (forall f' d s, (2 * length s + 1 <= f)%nat -> (f <= f')%nat ->
     scan_value py f d s = scan_value py f' d s) /\
  (forall f' d acc s, (2 * length s + 2 <= f)%nat -> (f <= f')%nat ->
     scan_elems py f d acc s = scan_elems py f' d acc s) /\
  (forall f' d acc s, (2 * length s + 2 <= f)%nat -> (f <= f')%nat ->
     scan_members py f d acc s = scan_members py f' d acc s).
Proof.
  induction f as [|f (IHv & IHe & IHm)]; [repeat split; intros; lia|].
  split; [|split].
  - intros [|f'] d s Hb Hf; [lia|]. cbn [scan_value]. destruct s as [|c s']; [done|].
    cbn [length] in Hb. pose proof (skip_ws_length s') as Hw.
    destruct (c =? 34)%N; [done|].
    destruct (c =? 123)%N.
    { destruct d as [|d]; [done|].
      destruct (expect 125 (skip_ws s')); [done|]. apply IHm; lia. }
    destruct (c =? 91)%N; [|done].
    destruct d as [|d]; [done|].
    destruct (expect 93 (skip_ws s')); [done|]. apply IHe; lia.
  - intros [|f'] d acc s Hb Hf; [lia|]. cbn [scan_elems].
    rewrite <- (IHv f' d s) by lia.
    destruct (scan_value py f d s) as [v r|] eqn:E; [|done].
    apply scan_length in E. pose proof (skip_ws_length r).
    destruct (expect 44 (skip_ws r)) as [r1|] eqn:E1; [|done].
    apply expect_length in E1. pose proof (skip_ws_length r1).
    apply IHe; lia.
  - intros [|f'] d acc s Hb Hf; [lia|]. cbn [scan_members].
    destruct (expect 34 s) as [r0|] eqn:E0; [|done]. apply expect_length in E0.
    destruct (scan_string r0) as [[k r1]|] eqn:E1; [|done].
    apply (scan_string_length _ _ _ _ (le_n _)) in E1.
    pose proof (skip_ws_length r1).
    destruct (expect 58 (skip_ws r1)) as [r2|] eqn:E2; [|done]. apply expect_length in E2.
    pose proof (skip_ws_length r2).
    rewrite <- (IHv f' d (skip_ws r2)) by lia.
    destruct (scan_value py f d (skip_ws r2)) as [v r3|] eqn:E3; [|done].
    apply scan_length in E3. pose proof (skip_ws_length r3).
    destruct (expect 44 (skip_ws r3)) as [r4|] eqn:E4; [|done].
    apply expect_length in E4. pose proof (skip_ws_length r4).
    apply IHm; lia.
Qed.

(** [json_loads] gives the scanner enough fuel: any larger amount yields the
    same result. *)
Lemma json_loads_fuel (py : interpreter) (s : str) (f d : nat) :
  (2 * length s + 2 <= f)%nat ->
  scan_value py f d (skip_ws s) = scan_value py (2 * length s + 2) d (skip_ws s).
Proof.
  intros Hf. symmetry. apply scan_fuel; [|done].
  pose proof (skip_ws_length s). lia.
Qed.

(** ** The fuel of the decoders and of the decimal rendering *)

(** A decoding step consumes at least one byte. *)
Lemma utf8_next_length (b0 : N) (r : list N) :
  match utf8_next b0 r with
  | UChar _ rest | UBad _ _ rest => (length rest <= length r)%nat
  end.
Proof.
  unfold utf8_next.
  repeat first
    [ progress cbn [length]
    | lia
    | match goal with
      | |- context [if ?b then _ else _] => destruct b
      | |- context [match ?l with [] => _ | _ :: _ => _ end] => destruct l
      | |- context [let '(_, _) := ?p in _] => destruct p
      end ].
Qed.

(** The decoders never run out of fuel: any amount from the length of the
    input on gives the same result. *)
Lemma utf8_replace_fuel (f f' : nat) (bs : list N) :
  (length bs <= f)%nat -> (f <= f')%nat -> utf8_replace f bs = utf8_replace f' bs.
Proof.
  revert f' bs. induction f as [|f IH]; intros f' bs Hb Hf.
  - destruct bs; [|simpl in Hb; lia]. by destruct f'.
  - destruct f' as [|f']; [lia|]. destruct bs as [|b0 r]; [done|].
    cbn [utf8_replace]. cbn [length] in Hb.
    pose proof (utf8_next_length b0 r) as Hn.
    destruct (utf8_next b0 r); f_equal; apply IH; lia.
Qed.

Lemma utf8_strict_fuel (f f' : nat) (pos : N) (bs : list N) :
  (length bs <= f)%nat -> (f <= f')%nat -> utf8_strict f pos bs = utf8_strict f' pos bs.
Proof.
  revert f' pos bs. induction f as [|f IH]; intros f' pos bs Hb Hf.
  - destruct bs; [|simpl in Hb; lia]. by destruct f'.
  - destruct f' as [|f']; [lia|]. destruct bs as [|b0 r]; [done|].
    cbn [utf8_strict]. cbn [length] in Hb.
    pose proof (utf8_next_length b0 r) as Hn.
    destruct (utf8_next b0 r); [|done]. by rewrite (IH f') by lia.
Qed.

Lemma dec_digits_fuel (f f' : nat) (n : N) :
  (n < 2 ^ N.of_nat (S f))%N -> (f <= f')%nat ->
  dec_digits (S f) n = dec_digits (S f') n.
Proof.
  revert f' n. induction f as [|f IH]; intros f' n Hn Hf.
  - cbn [dec_digits]. change (2 ^ N.of_nat 1)%N with 2%N in Hn.
    destruct (N.ltb_spec n 10); [done|lia].
  - destruct f' as [|f']; [lia|].
    change (dec_digits (S (S f)) n) with
      (if (n <? 10)%N then [48 + n]%N
       else dec_digits (S f) (n / 10) ++ [48 + n mod 10]%N).
    change (dec_digits (S (S f')) n) with
      (if (n <? 10)%N then [48 + n]%N
       else dec_digits (S f') (n / 10) ++ [48 + n mod 10]%N).
    destruct (N.ltb_spec n 10); [done|].
    f_equal. apply IH; [|lia].
    rewrite Nat2N.inj_succ, N.pow_succ_r' in Hn.
    apply N.Div0.div_lt_upper_bound. lia.
Qed.

(** [dec_of_N] gives [dec_digits] enough fuel. *)
Lemma dec_of_N_fuel (n : N) (f : nat) :
  (N.to_nat (N.log2 n) <= f)%nat -> dec_digits (S f) n = dec_of_N n.
Proof.
  intros Hf. unfold dec_of_N. symmetry. apply dec_digits_fuel; [|done].
  rewrite Nat2N.inj_succ, N2Nat.id.
  destruct n as [|p]; [done|]. apply N.log2_spec. done.
Qed.

(** ** The preflight short-circuit *)

(** C6. Every request whose method, read from [httpMethod] or else from
    [requestContext.http.method], is [OPTIONS] is answered 204 with the
    body [{}] and the four CORS headers, whatever its body and whether or
    not [TABLE_NAME] is set; the world is left as it was: nothing is
    parsed, drawn, read from the clock or sent to the store. *)
Theorem options_preflight (rs : pyval -> str) (ev : event) (w : world) :
  request_method ev = Some (lit "OPTIONS") ->
  lambda_handler rs ev w =
    ({| Response.statusCode := 204;
        Response.headers :=
          [ (lit "Access-Control-Allow-Origin",
              from_option id (lit "*") (getenv "ALLOWED_ORIGINS" w));
            (lit "Access-Control-Allow-Methods", lit "OPTIONS,POST");
            (lit "Access-Control-Allow-Headers", lit "Content-Type,Authorization");
            (lit "Access-Control-Max-Age", lit "86400") ];
        Response.body := lit "{}" |}, w).
Proof.
  intros Hm. unfold lambda_handler, is_options. rewrite Hm, str_eqb_refl.
  unfold _response, _get_cors_headers.
  by destruct (getenv _ w).
Qed.

Lemma options_preflight_witness :
  request_method preflight = Some (lit "OPTIONS") /\
  Response.statusCode (fst (lambda_handler sample_repr preflight unconfigured_world)) = 204%Z /\
  snd (lambda_handler sample_repr preflight unconfigured_world) = unconfigured_world.
Proof.
  assert (H : request_method preflight = Some (lit "OPTIONS")) by reflexivity.
  split; [exact H|].
  rewrite (options_preflight sample_repr preflight unconfigured_world H).
  split; reflexivity.
Defined.

(** ** The configuration gate *)

(** C7. A request whose method is not [OPTIONS], met with [TABLE_NAME]
    absent or empty, is answered 500 with the message
    "Server misconfiguration: TABLE_NAME is not set".  The answer does not
    depend on the headers or the body, and the world is unchanged: the
    store has received no call. *)
Theorem missing_table_name (rs : pyval -> str) (ev : event) (w : world) :
  request_method ev <> Some (lit "OPTIONS") ->
  getenv "TABLE_NAME" w = None \/ getenv "TABLE_NAME" w = Some [] ->
  lambda_handler rs ev w =
    ({| Response.statusCode := 500;
        Response.headers := _get_cors_headers w;
        Response.body :=
          json_dumps [(lit "message", lit "Server misconfiguration: TABLE_NAME is not set")] |},
     w) /\
  put_calls (snd (lambda_handler rs ev w)) = put_calls w.
Proof.
  intros Hm Ht. apply nonempty_None in Ht.
  assert (Ho : is_options ev = false).
  { unfold is_options. destruct (request_method ev) as [m|]; [|done].
    apply str_eqb_neq. congruence. }
  unfold lambda_handler. rewrite Ho, Ht. done.
Qed.

Lemma missing_table_name_witness :
  Response.statusCode
    (fst (lambda_handler sample_repr (post None jo_json) unconfigured_world)) = 500%Z /\
  put_calls (snd (lambda_handler sample_repr (post None jo_json) unconfigured_world)) = [].
Proof.
  destruct (missing_table_name sample_repr (post None jo_json) unconfigured_world)
    as [H1 H2].
  - discriminate.
  - left. reflexivity.
  - rewrite H1. split; reflexivity.
Defined.

(** ** Dictionaries *)

Section DictFacts.
Context {V : Type}.
Implicit Types (d : dict V) (k : str) (v : V).

Lemma dict_get_set_eq k v d : dict_get k (dict_set k v d) = Some v.
Proof.
  induction d as [|[k' v'] d IH]; simpl.
  - by rewrite str_eqb_refl.
  - destruct (str_eqb k k') eqn:E; simpl; rewrite E; [done|apply IH].
Qed.

Lemma dict_get_set_ne k k' v d :
  k <> k' -> dict_get k' (dict_set k v d) = dict_get k' d.
Proof.
  intros Hne. induction d as [|[k0 v0] d IH]; simpl.
  - by rewrite str_eqb_neq.
  - destruct (str_eqb k k0) eqn:E; simpl.
    + apply str_eqb_eq in E as <-. by rewrite str_eqb_neq.
    + by rewrite IH.
Qed.

Lemma dict_get_map {W : Type} (f : V -> W) k d :
  dict_get k (List.map (fun kv => (fst kv, f (snd kv))) d) = f <$> dict_get k d.
Proof.
  induction d as [|[k' v'] d IH]; simpl; [done|].
  by destruct (str_eqb k k').
Qed.

End DictFacts.

(** ** The content-type lookup *)





(** ** Form bodies and JSON bodies *)

Lemma parse_qs_values_from (k : str) (pairs : list (str * str)) (d : dict (list str)) :
  dict_get k (fold_left qs_add pairs d) =
    match dict_get k d, values_of k pairs with
    | Some vs, xs => Some (vs ++ xs)
    | None, [] => None
    | None, xs => Some xs
    end.
Proof.
  revert d. induction pairs as [|[n x] pairs IH]; intros d.
  - unfold values_of; simpl. destruct (dict_get k d); [by rewrite app_nil_r|done].
  - cbn [fold_left]. rewrite IH. unfold values_of; cbn [List.filter fst snd].
    unfold qs_add; cbn [fst snd].
    destruct (str_eqb k n) eqn:E.
    + apply str_eqb_eq in E as <-. cbn [List.map snd].
      destruct (dict_get k d) as [vs|]; rewrite dict_get_set_eq.
      * by rewrite <- app_assoc.
      * done.
    + assert (n <> k) by (intros ->; by rewrite str_eqb_refl in E).
      by destruct (dict_get n d); rewrite dict_get_set_ne.
Qed.

Lemma parse_qs_values (k : str) (qs : str) :
  dict_get k (parse_qs qs) =
    match values_of k (parse_qsl qs) with
    | [] => None
    | xs => Some xs
    end.
Proof. unfold parse_qs. by rewrite parse_qs_values_from. Qed.

(** C8. The form body [name=Jo&email=jo%40example.com] under a form content
    type and the JSON body with the same two fields under a JSON content
    type parse to the same mapping; the results differ in the tag only.  In
    every form body, a key maps to the first of the values sent under it.
    This holds under every interpreter that has room for the one JSON
    object. *)
Theorem form_and_json_agree :
  (forall py,
     _parse_body py (post (Some [(lit "Content-Type", form_type)]) jo_form)
       = Ok (jo_fields, lit "form")) /\
  (forall py, nesting_limit py <> 0%nat ->
     _parse_body py (post (Some [(lit "Content-Type", lit "application/json")]) jo_json)
       = Ok (jo_fields, lit "json")) /\
  forall (qs k : str),
    dict_get k (first_values (parse_qs qs)) = PyStr <$> head (values_of k (parse_qsl qs)).
Proof.
  split; [intros py; vm_compute; reflexivity|].
  split.
  { intros [[|d] m] Hd; [done|]. vm_compute. reflexivity. }
  intros qs k. unfold first_values.
  rewrite (dict_get_map (fun vs : list str =>
             match vs with x :: _ => PyStr x | [] => PyList [] end)).
  rewrite parse_qs_values.
  by destruct (values_of k (parse_qsl qs)).
Qed.

Lemma form_and_json_agree_witness :
  _parse_body sample_python
    (post (Some [(lit "Content-Type", lit "application/json")]) jo_json)
    = Ok (jo_fields, lit "json").
Proof.
  apply (proj1 (proj2 form_and_json_agree) sample_python). discriminate.
Defined.

(** ** The handler around the parser and the validator *)

Lemma is_options_false (ev : event) :
  request_method ev <> Some (lit "OPTIONS") -> is_options ev = false.
Proof.
  intros Hm. unfold is_options. destruct (request_method ev) as [m|]; [|done].
  apply str_eqb_neq. congruence.
Qed.

(** A [ValueError] raised by the parser becomes a 400 that carries its
    text; the world is untouched. *)
Lemma handler_parse_error (rs : pyval -> str) (ev : event) (w : world) (tn msg : str) :
  request_method ev <> Some (lit "OPTIONS") ->
  nonempty (getenv "TABLE_NAME" w) = Some tn ->
  _parse_body (python w) ev = Raise (ValueError msg) ->
  lambda_handler rs ev w = (_response w 400 [(lit "message", msg)], w).
Proof.
  intros Hm Ht Hp. unfold lambda_handler.
  rewrite (is_options_false ev Hm), Ht.
  unfold try_block, bindM, lift. by rewrite Hp.
Qed.

(** A payload the validator refuses becomes a 400 that carries the reason;
    the world is untouched. *)
Lemma handler_invalid (rs : pyval -> str) (ev : event) (w : world)
    (tn : str) (payload : dict pyval) (tag msg : str) :
  request_method ev <> Some (lit "OPTIONS") ->
  nonempty (getenv "TABLE_NAME" w) = Some tn ->
  _parse_body (python w) ev = Ok (payload, tag) ->
  _validate_payload rs payload = (false, msg) ->
  lambda_handler rs ev w = (_response w 400 [(lit "message", msg)], w).
Proof.
  intros Hm Ht Hp Hv. unfold lambda_handler.
  rewrite (is_options_false ev Hm), Ht.
  unfold try_block, bindM, lift. by rewrite Hp, Hv.
Qed.


Lemma validate_empty (rs : pyval -> str) :
  _validate_payload rs [] = (false, lit "Missing required field: name").
Proof. reflexivity. Qed.

(** ** The JSON path *)






(** ** The form path *)

Lemma b64_loop_raises (s : str) (st : b64_state) (e : exn) :
  b64_loop st s = Raise e -> decoder_error e.
Proof.
  revert st. induction s as [|c s IH]; intros st; simpl.
  - destruct (quad_pos st =? 0); [discriminate|].
    destruct (quad_pos st =? 1); intros [= <-]; eexists; split; eauto.
  - destruct (b64_feed st c); [apply IH|discriminate].
Qed.

Lemma utf8_strict_raises (fuel : nat) (pos : N) (bs : list N) (e : exn) :
  utf8_strict fuel pos bs = Raise e -> decoder_error e.
Proof.
  revert pos bs. induction fuel as [|f IH]; intros pos bs; simpl; [discriminate|].
  destruct bs as [|b0 r]; [discriminate|].
  destruct (utf8_next b0 r) as [cp rest|len why rest].
  - destruct (utf8_strict f _ rest) eqn:E; simpl; [discriminate|].
    intros [= <-]. by apply IH in E.
  - intros [= <-]. eexists; split; [reflexivity|].
    do 3 right. unfold utf8_error_text.
    destruct (len =? 1); eexists; cbn; reflexivity.
Qed.

Lemma raw_body_raises (ev : event) (e : exn) :
  raw_body ev = Raise e -> decoder_error e.
Proof.
  unfold raw_body. destruct (isBase64Encoded ev); [|discriminate].
  unfold b64decode.
  destruct (forallb _ _).
  - destruct (b64_loop _ _) as [bytes|e'] eqn:E; cbn [bind].
    + apply utf8_strict_raises.
    + intros [= <-]. by apply b64_loop_raises in E.
  - cbn [bind]. intros [= <-]. eexists; split; eauto.
Qed.

Lemma decoder_error_not_json (e : exn) :
  decoder_error e ->
  e <> ValueError "Invalid JSON in request body" /\
  e <> ValueError "Request JSON must be an object".
Proof.
  intros (m & -> & [-> | [-> | [[x ->] | [x ->]]]]); split; intros [= H];
    try discriminate H;
    apply (f_equal (firstn 9)) in H; vm_compute in H; discriminate H.
Qed.

Lemma split_once_absent (sep : N) (s : str) :
  ~ In sep s -> split_once sep s = None.
Proof.
  induction s as [|c s IH]; simpl; [done|].
  intros Hn. destruct (N.eqb_spec c sep) as [->|_]; [tauto|].
  rewrite IH; tauto.
Qed.

Lemma split_on_absent (sep c : N) (s : str) :
  ~ In c s -> Forall (fun field => ~ In c field) (split_on sep s).
Proof.
  induction s as [|a s IH]; simpl; intros Hn.
  - by repeat constructor.
  - assert (Hs : ~ In c s) by tauto. specialize (IH Hs).
    destruct (a =? sep).
    + constructor; [simpl; tauto|done].
    + destruct (split_on sep s) as [|f fs]; inversion IH; subst;
        constructor; simpl; try tauto; constructor.
Qed.

(** A body with no [=] carries no field at all. *)
Lemma parse_qs_no_equals (qs : str) : ~ In 61 qs -> parse_qs qs = [].
Proof.
  intros Hn. unfold parse_qs, parse_qsl.
  assert (H : flat_map parse_qsl_field (split_on 38 qs) = []).
  { pose proof (split_on_absent 38 61 qs Hn) as HF.
    induction HF as [|f fs Hf _ IH]; simpl; [done|].
    rewrite IH, app_nil_r. unfold parse_qsl_field.
    destruct f; [done|]. by rewrite split_once_absent. }
  by rewrite H.
Qed.

(** C10 fails when the body is flagged as base64: decoding comes before
    the form branch and raises on a body that is not base64. *)
Lemma form_parsing_base64_raises :
  str_contains form_type (content_type bad_base64_form) = true /\
  _parse_body sample_python bad_base64_form = Raise (ValueError "Incorrect padding") /\
  lambda_handler sample_repr bad_base64_form sample_world =
    (_response sample_world 400 [(lit "message", lit "Incorrect padding")], sample_world).
Proof.
  split; [vm_compute; reflexivity|].
  assert (Hp : _parse_body (python sample_world) bad_base64_form =
                 Raise (ValueError "Incorrect padding")) by (vm_compute; reflexivity).
  split; [exact Hp|].
  apply (handler_parse_error sample_repr bad_base64_form sample_world (lit "leads"));
    [discriminate|reflexivity|exact Hp].
Qed.

(** C10, amended. For a request whose content type contains
    [application/x-www-form-urlencoded], parameters included, and under
    every interpreter: a body that is not flagged as base64 always parses to
    a mapping tagged [form]; so does a flagged body whenever its base64 and
    UTF-8 decoding succeeds, [text] being the decoded body; parsing raises
    exactly when that decoding raises, and then with the decoder's error,
    which the handler answers 400 with the text of the error, so the two
    JSON parse errors cannot occur; and a body whose text holds no
    [=] parses to the empty mapping, which the handler answers with the
    validation failure "Missing required field: name". *)
Theorem form_parsing_total (ev : event) :
  str_contains form_type (content_type ev) = true ->
  (isBase64Encoded ev = false ->
     forall py,
       _parse_body py ev =
         Ok (first_values (parse_qs (or_default (body ev) [])), lit "form")) /\
  (forall py text, raw_body ev = Ok text ->
     _parse_body py ev = Ok (first_values (parse_qs text), lit "form")) /\
  (forall py e, _parse_body py ev = Raise e <-> raw_body ev = Raise e) /\
  (forall e, raw_body ev = Raise e ->
     forall rs w tn,
       request_method ev <> Some (lit "OPTIONS") ->
       nonempty (getenv "TABLE_NAME" w) = Some tn ->
       lambda_handler rs ev w = (_response w 400 [(lit "message", exn_text e)], w)) /\
  (forall py, _parse_body py ev <> Raise (ValueError "Invalid JSON in request body")) /\
  (forall py, _parse_body py ev <> Raise (ValueError "Request JSON must be an object")) /\
  (forall text, raw_body ev = Ok text -> ~ In 61 text ->
     (forall py, _parse_body py ev = Ok ([], lit "form")) /\
     forall rs w tn,
       request_method ev <> Some (lit "OPTIONS") ->
       nonempty (getenv "TABLE_NAME" w) = Some tn ->
       lambda_handler rs ev w =
         (_response w 400 [(lit "message", lit "Missing required field: name")], w)).
Proof.
  intros Hct.
  assert (Hp : forall py text, raw_body ev = Ok text ->
            _parse_body py ev = Ok (first_values (parse_qs text), lit "form")).
  { intros py text Hb. unfold _parse_body. rewrite Hb. cbn [bind].
    unfold form_type in Hct. by rewrite Hct. }
  assert (Hplain : isBase64Encoded ev = false -> raw_body ev = Ok (or_default (body ev) [])).
  { intros Hf. unfold raw_body. by rewrite Hf. }
  assert (Hr : forall py e, _parse_body py ev = Raise e <-> raw_body ev = Raise e).
  { intros py e. destruct (raw_body ev) as [text|e'] eqn:Hb.
    - rewrite (Hp py text eq_refl). split; discriminate.
    - unfold _parse_body. rewrite Hb. cbn [bind]. split; by intros [= ->]. }
  assert (Hne : forall py e, _parse_body py ev = Raise e -> decoder_error e).
  { intros py e H. apply Hr in H. by apply raw_body_raises in H. }
  split; [|split; [|split; [|split; [|split; [|split]]]]].
  - intros Hf py. by apply Hp, Hplain.
  - exact Hp.
  - exact Hr.
  - intros e Hb rs w tn Hm Ht.
    destruct (raw_body_raises ev e Hb) as (m & -> & _).
    apply (handler_parse_error rs ev w tn m Hm Ht). by apply Hr.
  - intros py H. by apply Hne, decoder_error_not_json in H as [? _].
  - intros py H. by apply Hne, decoder_error_not_json in H as [_ ?].
  - intros text Hb Hno.
    assert (He : forall py, _parse_body py ev = Ok ([], lit "form")).
    { intros py. rewrite (Hp py _ Hb). by rewrite parse_qs_no_equals. }
    split; [done|].
    intros rs w tn Hm Ht.
    eapply handler_invalid; eauto using validate_empty.
Qed.

Lemma form_parsing_total_witness :
  _parse_body sample_python
    (post (Some [(lit "Content-Type", lit "application/x-www-form-urlencoded; charset=utf-8")])
       "not a form")
    = Ok ([], lit "form") /\
  _parse_body sample_python jo_form_base64 = Ok (jo_fields, lit "form").
Proof.
  split.
  - destruct (form_parsing_total
                (post (Some [(lit "Content-Type",
                              lit "application/x-www-form-urlencoded; charset=utf-8")])
                   "not a form")) as (_ & _ & _ & _ & _ & _ & H).
    + vm_compute. reflexivity.
    + apply (H (lit "not a form")); [reflexivity|].
      vm_compute. intros H'. repeat (destruct H' as [H'|H']; [discriminate H'|]). exact H'.
  - destruct (form_parsing_total jo_form_base64) as (_ & H & _).
    + vm_compute. reflexivity.
    + rewrite (H sample_python jo_form); [vm_compute; reflexivity|].
      vm_compute. reflexivity.
Defined.

(** ** The validator *)

(** The checks run in the order [name], [email], email shape; the first
    failure decides. *)
Lemma validate_missing_name (rs : pyval -> str) (payload : dict pyval) :
  truthy (py_get "name" payload) = false ->
  _validate_payload rs payload = (false, lit "Missing required field: name").
Proof. intros H. unfold _validate_payload. simpl. by rewrite H. Qed.

Lemma validate_missing_email (rs : pyval -> str) (payload : dict pyval) :
  truthy (py_get "name" payload) = true ->
  truthy (py_get "email" payload) = false ->
  _validate_payload rs payload = (false, lit "Missing required field: email").
Proof. intros H1 H2. unfold _validate_payload. simpl. by rewrite H1, H2. Qed.

Lemma validate_bad_email (rs : pyval -> str) (payload : dict pyval) :
  truthy (py_get "name" payload) = true ->
  truthy (py_get "email" payload) = true ->
  _is_valid_email (py_str rs (py_get "email" payload)) = false ->
  _validate_payload rs payload = (false, lit "Invalid email format").
Proof. intros H1 H2 H3. unfold _validate_payload. simpl. by rewrite H1, H2, H3. Qed.

Lemma validate_ok (rs : pyval -> str) (payload : dict pyval) :
  truthy (py_get "name" payload) = true ->
  truthy (py_get "email" payload) = true ->
  _is_valid_email (py_str rs (py_get "email" payload)) = true ->
  _validate_payload rs payload = (true, []).
Proof. intros H1 H2 H3. unfold _validate_payload. simpl. by rewrite H1, H2, H3. Qed.

(** *** The end anchor of the email pattern *)

Lemma re_run_many1 (a : atom) (r : regex) (b : bool) (s : str) :
  re_run (Many1 a :: r) b s = many1 a (re_run r false) s.
Proof.
  induction s as [|c s IH]; [done|].
  cbn [many1]. rewrite <- IH. reflexivity.
Qed.

Lemma chomp_cons (c : N) (s : str) :
  chomp (c :: s) =
    match s with
    | [] => if c =? 10 then Some [] else None
    | _ => option_map (cons c) (chomp s)
    end.
Proof. by destruct s. Qed.

Lemma many1_upto_newline (a : atom) (k k' : str -> bool) :
  (forall s, k' s = upto_newline k s) ->
  forall s, many1 a k' s = upto_newline (many1 a k) s.
Proof.
  intros Hk s. unfold upto_newline in *. induction s as [|c s IH]; [done|].
  cbn [many1]. rewrite IH, Hk, chomp_cons.
  destruct s as [|c' s'].
  - cbn. destruct (c =? 10); cbn; by rewrite ?orb_false_r.
  - destruct (chomp (c' :: s')) as [t|]; cbn [option_map].
    + change (many1 a k (c :: t)) with (atom_ok a c && (many1 a k t || k t)).
      destruct (atom_ok a c); cbn [andb]; [|done].
      generalize (many1 a k (c' :: s')), (k (c' :: s')), (many1 a k t), (k t).
      by intros [] [] [] [].
    + by rewrite !orb_false_r.
Qed.

Lemma re_run_eol (b : bool) (s : str) :
  re_run [Eol] b s = match s with [] => true | [c] => c =? 10 | _ => false end.
Proof.
  destruct s as [|c [|c' s']]; try done.
  destruct c as [|p]; [done|].
  do 4 (destruct p as [p|p|]; try done).
Qed.

(** A pattern closed by [$] matches what the same pattern closed by [\Z]
    matches, with or without one final newline. *)
Lemma eol_upto_newline (r : regex) (b : bool) (s : str) :
  open_ended r = true ->
  re_run (r ++ [Eol]) b s = upto_newline (re_run (r ++ [Eos]) b) s.
Proof.
  intros Hr. revert b s. induction r as [|n r IH]; intros b s.
  - unfold upto_newline. cbn [app]. rewrite re_run_eol.
    destruct s as [|c [|c' s']].
    + done.
    + cbn. by destruct (c =? 10).
    + rewrite chomp_cons. by destruct (chomp (c' :: s')).
  - cbn [open_ended forallb] in Hr. apply andb_true_iff in Hr as [Hn Hr].
    specialize (IH Hr).
    destruct n; try discriminate Hn; cbn [app].
    + (* Bol *)
      cbn [re_run]. unfold upto_newline. cbn [re_run]. rewrite IH. unfold upto_newline.
      destruct b; cbn; [done|]. by destruct (chomp s).
    + (* One *)
      unfold upto_newline. destruct s as [|c s]; [done|].
      cbn [re_run]. rewrite IH, chomp_cons. unfold upto_newline.
      destruct s as [|c' s'].
      * cbn. destruct (c =? 10); cbn; by rewrite ?orb_false_r.
      * destruct (chomp (c' :: s')) as [t|]; cbn [option_map re_run].
        -- by rewrite andb_orb_distrib_r.
        -- by rewrite !orb_false_r.
    + (* Many1 *)
      rewrite re_run_many1.
      rewrite (many1_upto_newline a (re_run (r ++ [Eos]) false) _ (IH false)).
      unfold upto_newline. rewrite re_run_many1.
      destruct (chomp s); [|done]. by rewrite re_run_many1.
Qed.

(** The source's pattern accepts exactly the strings of the anchored shape
    and those strings followed by one newline. *)
Lemma is_valid_email_upto_newline (s : str) :
  _is_valid_email s = upto_newline has_email_shape s.
Proof.
  unfold _is_valid_email, has_email_shape, re_match.
  apply (eol_upto_newline
           [ Bol; Many1 (NotIn [CChar 64; CSpace]); One (Chr 64);
             Many1 (NotIn [CChar 64; CSpace]); One (Chr 46);
             Many1 (NotIn [CChar 64; CSpace]) ]).
  reflexivity.
Qed.

(** Whenever the email is a string that neither has the anchored shape nor
    is such a string followed by a newline, the validator answers
    "Invalid email format". *)
Lemma validate_bad_shape (rs : pyval -> str) (payload : dict pyval) (email : str) :
  truthy (py_get "name" payload) = true ->
  py_get "email" payload = PyStr email ->
  email <> [] ->
  upto_newline has_email_shape email = false ->
  _validate_payload rs payload = (false, lit "Invalid email format").
Proof.
  intros Hn He Hne Hs. apply validate_bad_email; try done.
  - rewrite He. by destruct email.
  - rewrite He. cbn [py_str]. by rewrite is_valid_email_upto_newline.
Qed.

(** C3 is broken by the source's pattern: its [$] also matches just before
    a final newline, so the email [a@b.c] followed by a newline, which ends
    in a whitespace character and so does not have the anchored shape, is
    not answered "Invalid email format" but accepted and stored. *)
Theorem trailing_newline_email_accepted :
  has_email_shape newline_email = false /\
  _is_valid_email newline_email = true /\
  _parse_body sample_python (post None newline_json) = Ok (newline_fields, lit "json") /\
  _validate_payload sample_repr newline_fields = (true, []) /\
  Response.statusCode (fst (lambda_handler sample_repr (post None newline_json) sample_world))
    = 201%Z.
Proof. repeat split; vm_compute; reflexivity. Qed.

(** ** The store *)

Lemma response_environ (w w' : world) (status : Z) (b : dict str) :
  environ w' = environ w -> _response w' status b = _response w status b.
Proof.
  intros H. unfold _response, _get_cors_headers, getenv. by rewrite H.
Qed.

(** What an accepted write is: the table exists, the record carries the
    key attribute, the condition holds, and exactly that record is
    written. *)
Lemma store_put_Ok (tn : str) (it : item) (c : condition) (ts ts' : gmap str table) :
  store_put tn it c ts = Ok ts' <->
  exists t k,
    ts !! tn = Some t /\ dict_get (key_attr t) it = Some k /\
    condition_holds c (rows t !! k) = true /\
    ts' = with_record ts tn t k it.
Proof.
  unfold store_put, with_record. split.
  - destruct (ts !! tn) as [t|] eqn:Ht; [|by intros [=]].
    destruct (dict_get (key_attr t) it) as [k|] eqn:Hk; [|by intros [=]].
    destruct (condition_holds c (rows t !! k)) eqn:Hc; [|by intros [=]].
    intros [= <-]. by exists t, k.
  - intros (t & k & -> & -> & -> & ->). done.
Qed.

(** The condition of the source, [attribute_not_exists(userId)], in a table
    keyed by [userId]: the write is refused exactly when a record is
    already stored under the same [userId] (every stored record carries its
    key attribute). *)
Lemma store_put_collision (tn : str) (it existing : item) (uid : str)
    (t : table) (ts : gmap str table) :
  ts !! tn = Some t ->
  key_attr t = lit "userId" ->
  dict_get "userId" it = Some uid ->
  rows t !! uid = Some existing ->
  dict_get "userId" existing = Some uid ->
  store_put tn it (attribute_not_exists "userId") ts =
    Raise (client_error "ConditionalCheckFailedException" "The conditional request failed").
Proof.
  intros Ht Hk Hi Hr He. unfold store_put.
  rewrite Ht, Hk, Hi, Hr. simpl. by rewrite He.
Qed.

Lemma store_put_fresh (tn : str) (it : item) (uid : str)
    (t : table) (ts : gmap str table) :
  ts !! tn = Some t ->
  key_attr t = lit "userId" ->
  dict_get "userId" it = Some uid ->
  rows t !! uid = None ->
  store_put tn it (attribute_not_exists "userId") ts = Ok (with_record ts tn t uid it).
Proof.
  intros Ht Hk Hi Hr. unfold store_put, with_record.
  rewrite Ht, Hk, Hi, Hr. done.
Qed.

(** ** The record *)

Lemma build_item_fields (rs : pyval -> str) (payload : dict pyval)
    (tag uid now : str) :
  let it := build_item rs payload tag uid now in
  dict_get "userId" it = Some uid /\
  dict_get "name" it = Some (py_str rs (py_get "name" payload)) /\
  dict_get "email" it = Some (py_str rs (py_get "email" payload)) /\
  dict_get "sourceType" it = Some tag /\
  dict_get "createdAt" it = Some now /\
  dict_get "updatedAt" it = Some now /\
  dict_get "message" it =
    (if is_none (py_get "message" payload) then None
     else Some (py_str rs (py_get "message" payload))) /\
  dict_get "phone" it =
    (if is_none (py_get "phone" payload) then None
     else Some (py_str rs (py_get "phone" payload))) /\
  dict_get "id" it = None.
Proof.
  unfold build_item, drop_none.
  destruct (is_none (py_get "message" payload));
    destruct (is_none (py_get "phone" payload));
    repeat split; reflexivity.
Qed.

(** ** Accepted and refused submissions *)

(** The run of the handler on a payload that passes validation, up to the
    answer of the store. *)
Lemma handler_valid (rs : pyval -> str) (ev : event) (w : world)
    (tn : str) (payload : dict pyval) (tag msg : str) :
  request_method ev <> Some (lit "OPTIONS") ->
  nonempty (getenv "TABLE_NAME" w) = Some tn ->
  _parse_body (python w) ev = Ok (payload, tag) ->
  _validate_payload rs payload = (true, msg) ->
  outage w = None ->
  let uid := next_user_id w in
  let it := build_item rs payload tag uid (next_now_iso w) in
  lambda_handler rs ev w =
    match store_put tn it (attribute_not_exists "userId") (tables w) with
    | Ok ts =>
        (_response w 201 [(lit "message", lit "Submitted"); (lit "userId", uid)],
         after_submission w ts tn it)
    | Raise e =>
        (match e with
         | ValueError ve => _response w 400 [(lit "message", ve)]
         | ClientError ce =>
             _response w 500 [(lit "message", lit "DynamoDB error"); (lit "detail", ce)]
         | OtherError ex =>
             _response w 500 [(lit "message", lit "Internal server error"); (lit "detail", ex)]
         end,
         after_submission w (tables w) tn it)
    end.
Proof.
  intros Hm Ht Hp Hv Ho uid it. unfold lambda_handler.
  rewrite (is_options_false ev Hm), Ht.
  unfold try_block, bindM, lift. rewrite Hp, Hv. cbn [negb].
  unfold uuid4, utcnow_isoformat, _put_item, put_item, respond.
  cbn [environ urandom draws utc_clock ticks tables put_calls outage].
  unfold after_submission.
  rewrite Ho. fold (next_user_id w). fold uid. fold (next_now_iso w). fold it.
  destruct (store_put tn it _ (tables w)) as [ts|[m|m|m]];
    cbn [environ urandom draws utc_clock ticks tables put_calls outage];
    (rewrite (response_environ w) by reflexivity); reflexivity.
Qed.

(** The store itself answers a refused write with a [ClientError]. *)
Lemma store_put_raises (tn : str) (it : item) (c : condition) (ts : gmap str table)
    (e : exn) :
  store_put tn it c ts = Raise e -> exists ce, e = ClientError ce.
Proof.
  unfold store_put, client_error.
  destruct (ts !! tn) as [t|]; [|intros [= <-]; eauto].
  destruct (dict_get (key_attr t) it) as [k|]; [|intros [= <-]; eauto].
  destruct (condition_holds c (rows t !! k)); [discriminate|intros [= <-]; eauto].
Qed.

(** The same run, by the answer to the store call whatever its cause: an
    accepted write gives 201; an exception gives the response of the
    matching [except] clause and leaves the tables as they were. *)
Lemma handler_answered (rs : pyval -> str) (ev : event) (w : world)
    (tn : str) (payload : dict pyval) (tag msg : str) :
  request_method ev <> Some (lit "OPTIONS") ->
  nonempty (getenv "TABLE_NAME" w) = Some tn ->
  _parse_body (python w) ev = Ok (payload, tag) ->
  _validate_payload rs payload = (true, msg) ->
  let uid := next_user_id w in
  let it := build_item rs payload tag uid (next_now_iso w) in
  lambda_handler rs ev w =
    match store_answer w tn it with
    | Ok ts =>
        (_response w 201 [(lit "message", lit "Submitted"); (lit "userId", uid)],
         after_submission w ts tn it)
    | Raise e => (error_response w e, after_submission w (tables w) tn it)
    end.
Proof.
  intros Hm Ht Hp Hv uid it. unfold store_answer.
  destruct (outage w) as [e|] eqn:Ho.
  - unfold lambda_handler.
    rewrite (is_options_false ev Hm), Ht.
    unfold try_block, bindM, lift. rewrite Hp, Hv. cbn [negb].
    unfold uuid4, utcnow_isoformat, _put_item, put_item, respond.
    cbn [environ urandom draws utc_clock ticks tables put_calls outage].
    unfold after_submission, error_response.
    rewrite Ho. fold (next_user_id w). fold uid. fold (next_now_iso w). fold it.
    destruct e;
      cbn [environ urandom draws utc_clock ticks tables put_calls outage];
      (rewrite (response_environ w) by reflexivity); reflexivity.
  - pose proof (handler_valid rs ev w tn payload tag msg Hm Ht Hp Hv Ho) as Hrun.
    cbv zeta in Hrun. fold uid it in Hrun. rewrite Hrun.
    destruct (store_put tn it _ (tables w)) as [ts|e]; [done|]. by destruct e.
Qed.

(** ** Generated identifiers *)

Lemma nibble_shift (n i : N) : nibble (N.shiftr n 4) i = nibble n (N.succ i).
Proof. unfold nibble. rewrite N.shiftr_shiftr. f_equal. f_equal. lia. Qed.

Lemma hex_fixed_nibbles (w : nat) (n : N) :
  hex_fixed w n = List.map (fun i => hex_digit (nibble n (N.of_nat i))) (rev (seq 0 w)).
Proof.
  revert n. induction w as [|w IH]; intros n; [done|].
  cbn [hex_fixed seq rev]. rewrite IH, <- seq_shift, <- map_rev, List.map_app, List.map_map.
  cbn [List.map]. f_equal.
  apply map_ext. intros i. by rewrite nibble_shift, Nat2N.inj_succ.
Qed.

Lemma uuid_str_layout (n : N) :
  uuid_str n =
    let h i := hex_digit (nibble n i) in
    [h 31; h 30; h 29; h 28; h 27; h 26; h 25; h 24; 45;
     h 23; h 22; h 21; h 20; 45; h 19; h 18; h 17; h 16; 45;
     h 15; h 14; h 13; h 12; 45;
     h 11; h 10; h 9; h 8; h 7; h 6; h 5; h 4; h 3; h 2; h 1; h 0].
Proof. unfold uuid_str. rewrite hex_fixed_nibbles. reflexivity. Qed.

Lemma nibble_lt (n i : N) : nibble n i < 16.
Proof.
  unfold nibble. change 15 with (N.ones 4). rewrite N.land_ones.
  apply N.mod_lt. discriminate.
Qed.

Lemma hex_digit_lower (d : N) : d < 16 -> is_lower_hex (hex_digit d) = true.
Proof.
  intros H. unfold hex_digit, is_lower_hex, between.
  destruct (N.ltb_spec d 10).
  - apply orb_true_iff. left. apply andb_true_iff. split; apply N.leb_le; lia.
  - apply orb_true_iff. right. apply andb_true_iff. split; apply N.leb_le; lia.
Qed.

Lemma nibble_bits (n i k : N) :
  N.testbit (nibble n i) k = N.testbit n (4 * i + k) && (k <? 4).
Proof.
  unfold nibble. rewrite N.land_spec, N.shiftr_spec by lia.
  f_equal; [f_equal; lia|].
  change 15 with (N.ones 4).
  destruct (N.ltb_spec k 4).
  - by apply N.ones_spec_low.
  - by apply N.ones_spec_high.
Qed.

(** The version and variant bits of a generated identifier. *)
Lemma uuid4_int_fixed_bits (r k : N) :
  In k [62; 63; 76; 77; 78; 79] ->
  N.testbit (uuid4_int r) k = (k =? 63) || (k =? 78).
Proof.
  intros Hk. unfold uuid4_int.
  rewrite N.lor_spec, N.ldiff_spec, N.lor_spec, N.ldiff_spec.
  generalize (N.testbit (r mod 2 ^ 128) k). intros b.
  simpl in Hk. repeat (destruct Hk as [<- | Hk]; [by destruct b|]). done.
Qed.

Lemma uuid4_version_nibble (r : N) : nibble (uuid4_int r) 19 = 4.
Proof.
  apply N.bits_inj. intros k. rewrite nibble_bits.
  destruct (N.ltb_spec k 4) as [Hlt|Hge].
  - assert (Hk : k = 0 \/ k = 1 \/ k = 2 \/ k = 3) by lia.
    rewrite andb_true_r.
    destruct Hk as [-> | [-> | [-> | ->]]]; rewrite uuid4_int_fixed_bits; simpl; auto 10.
  - rewrite andb_false_r. change 4 with (2 ^ 2). rewrite N.pow2_bits_eqb.
    symmetry. apply N.eqb_neq. lia.
Qed.

Lemma uuid4_variant_nibble (r : N) :
  In (nibble (uuid4_int r) 15) [8; 9; 10; 11].
Proof.
  pose proof (nibble_lt (uuid4_int r) 15) as Hlt.
  assert (H3 : N.testbit (nibble (uuid4_int r) 15) 3 = true)
    by (rewrite nibble_bits, uuid4_int_fixed_bits; [reflexivity | simpl; auto 10]).
  assert (H2 : N.testbit (nibble (uuid4_int r) 15) 2 = false)
    by (rewrite nibble_bits, uuid4_int_fixed_bits; [reflexivity | simpl; auto 10]).
  remember (nibble (uuid4_int r) 15) as v eqn:Ev. clear Ev.
  assert (Hv : v = 0 \/ v = 1 \/ v = 2 \/ v = 3 \/ v = 4 \/ v = 5 \/ v = 6 \/ v = 7 \/
               v = 8 \/ v = 9 \/ v = 10 \/ v = 11 \/ v = 12 \/ v = 13 \/ v = 14 \/ v = 15)
    by lia.
  repeat (destruct Hv as [-> | Hv];
          [first [ vm_compute in H3; discriminate H3
                 | vm_compute in H2; discriminate H2
                 | simpl; auto 10 ]|]).
  subst v. vm_compute in H2. discriminate H2.
Qed.

Theorem uuid4_shape (r : N) : is_uuid4 (uuid_str (uuid4_int r)) = true.
Proof.
  rewrite uuid_str_layout. cbv beta zeta.
  rewrite uuid4_version_nibble.
  assert (Hhex : forall i, is_lower_hex (hex_digit (nibble (uuid4_int r) i)) = true)
    by (intros i; apply hex_digit_lower, nibble_lt).
  unfold is_uuid4. cbn [forallb]. rewrite !Hhex.
  destruct (uuid4_variant_nibble r) as [<- | [<- | [<- | [<- | []]]]]; reflexivity.
Qed.

(** ** Valid submissions *)

(** C1 fails when the store refuses the write: the valid payload of the
    sample request, met with a table that already holds a record under the
    identifier about to be drawn, is answered 500 and the table is left as
    it was. *)
Lemma valid_submission_refused :
  _parse_body sample_python (post None jo_json) = Ok (jo_fields, lit "json") /\
  truthy (py_get "name" jo_fields) = true /\
  truthy (py_get "email" jo_fields) = true /\
  _is_valid_email (py_str sample_repr (py_get "email" jo_fields)) = true /\
  Response.statusCode (fst (lambda_handler sample_repr (post None jo_json) collision_world))
    = 500%Z /\
  tables (snd (lambda_handler sample_repr (post None jo_json) collision_world))
    = tables collision_world.
Proof. repeat split; vm_compute; reflexivity. Qed.

(** C1, amended. For a parsed payload whose [name] is truthy and whose
    [email] is truthy and, as a string, matches the email pattern, the
    handler draws one identifier, reads the clock once and sends one
    [put_item] request, for the record [it].  If the store accepts the
    conditional write, the handler answers 201 with the body
    [{"message": "Submitted", "userId": <the generated UUID>}]; the one
    record sent is written under its key and nothing else in the store
    changes; its [createdAt] and [updatedAt] both hold that single clock
    reading.  If the store call raises a [ClientError], the handler answers
    500 "DynamoDB error" with the text of the error as [detail], and the
    tables are as they were.  A store that is reachable answers in one of
    these two ways. *)
Theorem valid_submission_stored (rs : pyval -> str) (ev : event) (w : world)
    (tn : str) (payload : dict pyval) (tag : str) :
  request_method ev <> Some (lit "OPTIONS") ->
  nonempty (getenv "TABLE_NAME" w) = Some tn ->
  _parse_body (python w) ev = Ok (payload, tag) ->
  truthy (py_get "name" payload) = true ->
  truthy (py_get "email" payload) = true ->
  _is_valid_email (py_str rs (py_get "email" payload)) = true ->
  let uid := next_user_id w in
  let now := next_now_iso w in
  let it := build_item rs payload tag uid now in
  (forall ts, store_answer w tn it = Ok ts ->
     lambda_handler rs ev w =
       ({| Response.statusCode := 201;
           Response.headers := _get_cors_headers w;
           Response.body :=
             json_dumps [(lit "message", lit "Submitted"); (lit "userId", uid)] |},
        after_submission w ts tn it) /\
     is_uuid4 uid = true /\
     dict_get "createdAt" it = Some now /\
     dict_get "updatedAt" it = Some now /\
     exists t k,
       tables w !! tn = Some t /\ dict_get (key_attr t) it = Some k /\
       ts = with_record (tables w) tn t k it) /\
  (forall ce, store_answer w tn it = Raise (ClientError ce) ->
     lambda_handler rs ev w =
       ({| Response.statusCode := 500;
           Response.headers := _get_cors_headers w;
           Response.body :=
             json_dumps [(lit "message", lit "DynamoDB error"); (lit "detail", ce)] |},
        after_submission w (tables w) tn it) /\
     tables (snd (lambda_handler rs ev w)) = tables w) /\
  (outage w = None ->
     (exists ts, store_answer w tn it = Ok ts) \/
     (exists ce, store_answer w tn it = Raise (ClientError ce))).
Proof.
  intros Hm Ht Hp Hn He Hv uid now it.
  pose proof (handler_answered rs ev w tn payload tag [] Hm Ht Hp
                (validate_ok rs payload Hn He Hv)) as Hrun.
  cbv zeta in Hrun. fold uid now it in Hrun.
  split; [|split].
  - intros ts Hs. rewrite Hs in Hrun.
    destruct (build_item_fields rs payload tag uid now) as (_ & _ & _ & _ & Hc & Hu & _).
    unfold store_answer in Hs. destruct (outage w); [discriminate|].
    apply store_put_Ok in Hs as (t & k & Hl & Hk & _ & ->).
    split; [exact Hrun|]. split; [apply uuid4_shape|].
    split; [exact Hc|]. split; [exact Hu|]. by exists t, k.
  - intros ce Hs. rewrite Hs in Hrun. rewrite Hrun. by split.
  - intros Ho. unfold store_answer. rewrite Ho.
    destruct (store_put tn it _ (tables w)) as [ts|e] eqn:Hs; [left; eauto|].
    right. apply store_put_raises in Hs as [ce ->]. eauto.
Qed.

Lemma valid_submission_stored_witness :
  (Response.statusCode (fst (lambda_handler sample_repr (post None jo_json) sample_world))
     = 201%Z /\
   length (put_calls (snd (lambda_handler sample_repr (post None jo_json) sample_world)))
     = 1%nat) /\
  (Response.statusCode (fst (lambda_handler sample_repr (post None jo_json) collision_world))
     = 500%Z /\
   tables (snd (lambda_handler sample_repr (post None jo_json) collision_world))
     = tables collision_world).
Proof.
  split.
  - destruct (valid_submission_stored sample_repr (post None jo_json) sample_world
                (lit "leads") jo_fields (lit "json")) as (H & _);
      try (vm_compute; reflexivity); [discriminate|].
    destruct (H (with_record (tables sample_world) (lit "leads") leads_table
                   (next_user_id sample_world)
                   (build_item sample_repr jo_fields (lit "json")
                      (next_user_id sample_world) (next_now_iso sample_world))))
      as (Hrun & _); [vm_compute; reflexivity|].
    rewrite Hrun. split; reflexivity.
  - destruct (valid_submission_stored sample_repr (post None jo_json) collision_world
                (lit "leads") jo_fields (lit "json")) as (_ & H & _);
      try (vm_compute; reflexivity); [discriminate|].
    destruct (H (lit "An error occurred (ConditionalCheckFailedException) when calling the PutItem operation: The conditional request failed"))
      as (Hrun & Htables); [vm_compute; reflexivity|].
    rewrite Hrun. split; reflexivity.
Defined.

(** ** Optional fields *)

(** C9. For a submission that passes validation and is accepted by the
    store, the record sent to the store and held by it afterwards has the
    keys [userId], [name], [email], [sourceType], [createdAt] and
    [updatedAt]; it has no [message] key when the payload's [message] is
    absent or null, and no [phone] key when the payload's [phone] is absent
    or null. *)
Theorem optional_fields_omitted (rs : pyval -> str) (ev : event) (w : world)
    (tn : str) (payload : dict pyval) (tag msg : str) (ts : gmap str table) :
  request_method ev <> Some (lit "OPTIONS") ->
  nonempty (getenv "TABLE_NAME" w) = Some tn ->
  _parse_body (python w) ev = Ok (payload, tag) ->
  _validate_payload rs payload = (true, msg) ->
  outage w = None ->
  store_put tn (build_item rs payload tag (next_user_id w) (next_now_iso w))
    (attribute_not_exists "userId") (tables w) = Ok ts ->
  exists (it : item) (t : table) (k : str),
    put_calls (snd (lambda_handler rs ev w)) = put_calls w ++ [(tn, it)] /\
    tables (snd (lambda_handler rs ev w)) !! tn = Some t /\
    rows t !! k = Some it /\
    (py_get "message" payload = PyNone -> dict_get "message" it = None) /\
    (py_get "phone" payload = PyNone -> dict_get "phone" it = None) /\
    is_Some (dict_get "userId" it) /\
    is_Some (dict_get "name" it) /\
    is_Some (dict_get "email" it) /\
    is_Some (dict_get "sourceType" it) /\
    is_Some (dict_get "createdAt" it) /\
    is_Some (dict_get "updatedAt" it).
Proof.
  intros Hm Ht Hp Hv Ho Hs.
  pose proof (handler_valid rs ev w tn payload tag msg Hm Ht Hp Hv Ho) as Hrun.
  cbv zeta in Hrun. rewrite Hs in Hrun. rewrite Hrun. cbn [snd].
  apply store_put_Ok in Hs as (t & k & Hl & Hk & _ & ->).
  destruct (build_item_fields rs payload tag (next_user_id w) (next_now_iso w))
    as (H1 & H2 & H3 & H4 & H5 & H6 & H7 & H8 & _).
  eexists _, _, k. split; [reflexivity|].
  split; [apply lookup_insert_eq|].
  split; [apply lookup_insert_eq|].
  split; [intros E; by rewrite H7, E|].
  split; [intros E; by rewrite H8, E|].
  rewrite H1, H2, H3, H4, H5, H6. by repeat split.
Qed.

Lemma optional_fields_omitted_witness :
  exists (it : item) (t : table) (k : str),
    put_calls (snd (lambda_handler sample_repr (post None jo_json) sample_world))
      = put_calls sample_world ++ [(lit "leads", it)] /\
    tables (snd (lambda_handler sample_repr (post None jo_json) sample_world)) !! lit "leads"
      = Some t /\
    rows t !! k = Some it /\
    dict_get "message" it = None /\
    dict_get "phone" it = None.
Proof.
  destruct (optional_fields_omitted sample_repr (post None jo_json) sample_world
              (lit "leads") jo_fields (lit "json") []
              (with_record (tables sample_world) (lit "leads") leads_table
                 (next_user_id sample_world)
                 (build_item sample_repr jo_fields (lit "json")
                    (next_user_id sample_world) (next_now_iso sample_world))))
    as (it & t & k & H1 & H2 & H3 & H4 & H5 & _); try (vm_compute; reflexivity).
  - discriminate.
  - exists it, t, k. repeat split; auto.
Defined.

(** ** The key of the record *)

(** C2 fails on the name of the field: the record the handler sends to the
    store has no [id] field; the identifier is stored under [userId]. *)
Lemma record_has_no_id_field :
  let it := build_item sample_repr jo_fields "json" taken_id (next_now_iso sample_world) in
  put_calls (snd (lambda_handler sample_repr (post None jo_json) sample_world))
    = [(lit "leads", it)] /\
  dict_get "id" it = None /\
  dict_get "userId" it = Some taken_id.
Proof. repeat split; vm_compute; reflexivity. Qed.

(** C2, amended. The record's identifier field is named [userId] and holds
    the generated identifier, which has the shape of a version-4 UUID.  In a
    table keyed by [userId] (each record stored under its own [userId]), the
    conditional write is refused exactly when a record is already stored
    under that identifier: the handler then answers 500 "DynamoDB error"
    and the table is unchanged; otherwise the record is inserted under the
    identifier and the handler answers 201. *)
Theorem user_id_is_the_key (rs : pyval -> str) (ev : event) (w : world)
    (tn : str) (payload : dict pyval) (tag msg : str) (t : table) :
  request_method ev <> Some (lit "OPTIONS") ->
  nonempty (getenv "TABLE_NAME" w) = Some tn ->
  _parse_body (python w) ev = Ok (payload, tag) ->
  _validate_payload rs payload = (true, msg) ->
  outage w = None ->
  tables w !! tn = Some t ->
  key_attr t = lit "userId" ->
  (forall k existing, rows t !! k = Some existing -> dict_get "userId" existing = Some k) ->
  let uid := next_user_id w in
  let it := build_item rs payload tag uid (next_now_iso w) in
  dict_get "userId" it = Some uid /\
  is_uuid4 uid = true /\
  (rows t !! uid = None ->
     lambda_handler rs ev w =
       (_response w 201 [(lit "message", lit "Submitted"); (lit "userId", uid)],
        after_submission w (with_record (tables w) tn t uid it) tn it)) /\
  (forall existing, rows t !! uid = Some existing ->
     lambda_handler rs ev w =
       (_response w 500
          [(lit "message", lit "DynamoDB error");
           (lit "detail",
             exn_text (client_error "ConditionalCheckFailedException"
                         "The conditional request failed"))],
        after_submission w (tables w) tn it)).
Proof.
  intros Hm Ht Hp Hv Ho Hl Hk Hwf uid it.
  pose proof (handler_valid rs ev w tn payload tag msg Hm Ht Hp Hv Ho) as Hrun.
  cbv zeta in Hrun. fold uid it in Hrun.
  destruct (build_item_fields rs payload tag uid (next_now_iso w)) as (Hu & _).
  fold it in Hu.
  split; [done|]. split; [apply uuid4_shape|]. split.
  - intros Hfree. by rewrite (store_put_fresh tn it uid t _ Hl Hk Hu Hfree) in Hrun.
  - intros existing Hex.
    by rewrite (store_put_collision tn it existing uid t _ Hl Hk Hu Hex (Hwf _ _ Hex)) in Hrun.
Qed.

Lemma user_id_is_the_key_witness :
  Response.statusCode (fst (lambda_handler sample_repr (post None jo_json) collision_world))
    = 500%Z /\
  tables (snd (lambda_handler sample_repr (post None jo_json) collision_world))
    = tables collision_world.
Proof.
  destruct (user_id_is_the_key sample_repr (post None jo_json) collision_world
              (lit "leads") jo_fields (lit "json") []
              {| key_attr := lit "userId";
                 rows := {[ taken_id := [(lit "userId", taken_id); (lit "name", lit "Al")] ]} |})
    as (_ & _ & _ & H); try (vm_compute; reflexivity).
  - discriminate.
  - intros k existing Hk. cbn [rows] in Hk.
    apply lookup_singleton_Some in Hk as [<- <-]. reflexivity.
  - rewrite (H [(lit "userId", taken_id); (lit "name", lit "Al")]).
    + split; reflexivity.
    + vm_compute. reflexivity.
Defined.

(** ** Every path of the handler *)


(** The run of the handler is one of the six paths. *)
Lemma handler_outcome (rs : pyval -> str) (ev : event) (w : world) :
  outcome rs ev w (fst (lambda_handler rs ev w)) (snd (lambda_handler rs ev w)).
Proof.
  unfold lambda_handler.
  destruct (is_options ev) eqn:Ho; [by constructor|].
  destruct (nonempty (getenv "TABLE_NAME" w)) as [tn|] eqn:Ht; [|by constructor].
  unfold try_block, bindM, lift.
  destruct (_parse_body (python w) ev) as [[payload tag]|e] eqn:Hp.
  - destruct (_validate_payload rs payload) as [[|] msg] eqn:Hv; cbn [negb].
    + unfold uuid4, utcnow_isoformat, _put_item, put_item, respond.
      cbn [environ urandom draws utc_clock ticks tables put_calls outage].
      fold (next_user_id w). fold (next_now_iso w).
      set (it := build_item rs payload tag (next_user_id w) (next_now_iso w)).
      destruct (store_answer w tn it) as [ts|e] eqn:Hs.
      * unfold store_answer in Hs.
        destruct (outage w) as [e|] eqn:Eo; [discriminate|]. rewrite Hs.
        cbn [fst snd]. rewrite (response_environ w) by reflexivity.
        pose proof (Stored rs ev w tn payload tag msg ts Ho Ht Hp Hv) as H.
        unfold store_answer in H. rewrite Eo in H. specialize (H Hs).
        unfold after_submission in H. rewrite Eo in H. exact H.
      * pose proof (Refused rs ev w tn payload tag msg e Ho Ht Hp Hv Hs) as H.
        unfold after_submission in H. fold it in H.
        unfold store_answer in Hs.
        destruct (outage w) as [e0|] eqn:Eo.
        -- injection Hs as ->. destruct e; cbn [fst snd];
             (rewrite (response_environ w) by reflexivity); exact H.
        -- rewrite Hs. destruct e; cbn [fst snd];
             (rewrite (response_environ w) by reflexivity); exact H.
    + unfold respond. cbn [fst snd]. by econstructor.
  - pose proof (Unparsed rs ev w tn e Ho Ht Hp) as H.
    by destruct e.
Qed.

(** ** What every response looks like *)

Lemma response_headers (w : world) (status : Z) (b : dict str) :
  Response.headers (_response w status b) = _get_cors_headers w.
Proof. reflexivity. Qed.

Lemma error_response_headers (w : world) (e : exn) :
  Response.headers (error_response w e) = _get_cors_headers w.
Proof. by destruct e. Qed.

(** X1. Whatever the request and whatever path the handler takes, success
    or error, the response carries the four CORS headers; the allowed origin
    is the value of [ALLOWED_ORIGINS], even when that is the empty string,
    and [*] only when the variable is absent. *)
Theorem every_response_has_cors_headers (rs : pyval -> str) (ev : event) (w : world) :
  Response.headers (fst (lambda_handler rs ev w)) =
    [ (lit "Access-Control-Allow-Origin",
        match dict_get "ALLOWED_ORIGINS" (environ w) with
        | Some origin => origin
        | None => lit "*"
        end);
      (lit "Access-Control-Allow-Methods", lit "OPTIONS,POST");
      (lit "Access-Control-Allow-Headers", lit "Content-Type,Authorization");
      (lit "Access-Control-Max-Age", lit "86400") ].
Proof.
  destruct (handler_outcome rs ev w); rewrite ?response_headers, ?error_response_headers;
    reflexivity.
Qed.

(** X2. The response is one of seven shapes, and no other status code is
    ever produced: 204 with [{}]; 201 with [message] "Submitted" and the
    generated [userId]; 400 with a single [message]; 500 with the
    misconfiguration message; 500 "DynamoDB error" or "Internal server
    error" with a [detail]. *)
Theorem response_shapes (rs : pyval -> str) (ev : event) (w : world) :
  let resp := fst (lambda_handler rs ev w) in
  exists d : dict str,
    Response.body resp = json_dumps d /\
    ((Response.statusCode resp = 204%Z /\ d = []) \/
     (Response.statusCode resp = 201%Z /\
      d = [(lit "message", lit "Submitted"); (lit "userId", next_user_id w)]) \/
     (Response.statusCode resp = 400%Z /\ exists msg, d = [(lit "message", msg)]) \/
     (Response.statusCode resp = 500%Z /\
      (d = [(lit "message", lit "Server misconfiguration: TABLE_NAME is not set")] \/
       (exists detail, d = [(lit "message", lit "DynamoDB error"); (lit "detail", detail)]) \/
       (exists detail,
          d = [(lit "message", lit "Internal server error"); (lit "detail", detail)])))).
Proof.
  cbv zeta. destruct (handler_outcome rs ev w) as [ | |tn e| | |tn payload tag msg e];
    try (eexists; split; [reflexivity|]; cbn [_response Response.statusCode]; eauto 10);
    destruct e as [m|m|m]; eexists; (split; [reflexivity|]);
    cbn [_response Response.statusCode]; eauto 10.
Qed.

(** X3. Nothing is persisted unless the answer is 201: with any other
    status the tables are exactly as they were. *)
Theorem no_write_without_201 (rs : pyval -> str) (ev : event) (w : world) :
  Response.statusCode (fst (lambda_handler rs ev w)) <> 201%Z ->
  tables (snd (lambda_handler rs ev w)) = tables w.
Proof.
  by destruct (handler_outcome rs ev w).
Qed.

(** X4. A run sends at most one request to the store.  A run that sends
    none leaves the whole world unchanged; a run that sends one sends it to
    the table named by [TABLE_NAME], after drawing exactly one identifier
    and reading the clock exactly once, and never touches the environment,
    the entropy source or the clock themselves. *)
Theorem at_most_one_store_call (rs : pyval -> str) (ev : event) (w : world) :
  let w' := snd (lambda_handler rs ev w) in
  w' = w \/
  exists tn it,
    nonempty (getenv "TABLE_NAME" w) = Some tn /\
    put_calls w' = put_calls w ++ [(tn, it)] /\
    draws w' = S (draws w) /\ ticks w' = S (ticks w) /\
    environ w' = environ w /\ urandom w' = urandom w /\
    utc_clock w' = utc_clock w /\ outage w' = outage w.
Proof.
  cbv zeta. destruct (handler_outcome rs ev w); auto; right; eauto 10.
Qed.

Lemma no_write_without_201_witness :
  tables (snd (lambda_handler sample_repr (post None jo_json) collision_world))
    = tables collision_world.
Proof.
  apply (no_write_without_201 sample_repr (post None jo_json) collision_world).
  vm_compute. discriminate.
Defined.

(** ** The records the handler writes *)

Lemma validate_true_inv (rs : pyval -> str) (payload : dict pyval) (msg : str) :
  _validate_payload rs payload = (true, msg) ->
  truthy (py_get "name" payload) = true /\
  truthy (py_get "email" payload) = true /\
  _is_valid_email (py_str rs (py_get "email" payload)) = true.
Proof.
  unfold _validate_payload. cbn [first_missing].
  destruct (truthy (py_get "name" payload)); cbn [negb]; [|discriminate].
  destruct (truthy (py_get "email" payload)); cbn [negb]; [|discriminate].
  destruct (_is_valid_email _); cbn [negb]; [done|discriminate].
Qed.

Lemma parse_body_tag (py : interpreter) (ev : event) (d : dict pyval) (tag : str) :
  _parse_body py ev = Ok (d, tag) -> tag = lit "form" \/ tag = lit "json".
Proof.
  unfold _parse_body. destruct (raw_body ev) as [text|]; cbn [bind]; [|discriminate].
  destruct (str_contains _ _); [intros [= _ <-]; by left|].
  destruct text as [|c text']; cbn [bind].
  - intros [= _ <-]. by right.
  - destruct (json_loads _ _) as [[]|[]]; cbn [bind]; try discriminate.
    intros [= _ <-]. by right.
Qed.

Lemma app_one_neq {A} (l : list A) (x : A) : l <> l ++ [x].
Proof.
  intros H. apply (f_equal length) in H. rewrite length_app in H. simpl in H. lia.
Qed.

(** X5. Every record the handler sends to the store goes to the table
    named by [TABLE_NAME] and is well formed: its [userId] has the shape of
    a version-4 UUID, its [email] is a string the email pattern accepts, its
    [sourceType] is [json] or [form], its [name] is present, and its
    [createdAt] and [updatedAt] hold the same time. *)
Theorem sent_records_are_well_formed (rs : pyval -> str) (ev : event) (w : world)
    (tn : str) (it : item) :
  put_calls (snd (lambda_handler rs ev w)) = put_calls w ++ [(tn, it)] ->
  nonempty (getenv "TABLE_NAME" w) = Some tn /\
  (exists uid, dict_get "userId" it = Some uid /\ is_uuid4 uid = true) /\
  is_Some (dict_get "name" it) /\
  (exists email, dict_get "email" it = Some email /\ _is_valid_email email = true) /\
  (dict_get "sourceType" it = Some (lit "json") \/
   dict_get "sourceType" it = Some (lit "form")) /\
  (exists now, dict_get "createdAt" it = Some now /\ dict_get "updatedAt" it = Some now).
Proof.
  assert (Hgen : forall tn0 payload tag msg,
            nonempty (getenv "TABLE_NAME" w) = Some tn0 ->
            _parse_body (python w) ev = Ok (payload, tag) ->
            _validate_payload rs payload = (true, msg) ->
            put_calls w ++
              [(tn0, build_item rs payload tag (next_user_id w) (next_now_iso w))]
              = put_calls w ++ [(tn, it)] ->
            nonempty (getenv "TABLE_NAME" w) = Some tn /\
            (exists uid, dict_get "userId" it = Some uid /\ is_uuid4 uid = true) /\
            is_Some (dict_get "name" it) /\
            (exists email, dict_get "email" it = Some email /\ _is_valid_email email = true) /\
            (dict_get "sourceType" it = Some (lit "json") \/
             dict_get "sourceType" it = Some (lit "form")) /\
            (exists now, dict_get "createdAt" it = Some now /\
                         dict_get "updatedAt" it = Some now)).
  { intros tn0 payload tag msg Ht Hp Hv Hc.
    apply app_inj_tail in Hc as [_ [= <- <-]].
    destruct (build_item_fields rs payload tag (next_user_id w) (next_now_iso w))
      as (H1 & H2 & H3 & H4 & H5 & H6 & _).
    apply validate_true_inv in Hv as (_ & _ & Hv).
    split; [done|]. split; [eexists; split; [exact H1|apply uuid4_shape]|].
    split; [by rewrite H2|]. split; [eauto|].
    split; [|eauto].
    rewrite H4. by destruct (parse_body_tag _ ev payload tag Hp) as [-> | ->]; [right|left]. }
  destruct (handler_outcome rs ev w);
    try (intros Hc; by apply app_one_neq in Hc);
    cbn [after_submission put_calls]; eauto.
Qed.

Lemma sent_records_are_well_formed_witness :
  exists email,
    dict_get "email"
      (build_item sample_repr jo_fields "json" taken_id (next_now_iso sample_world))
      = Some email /\
    _is_valid_email email = true.
Proof.
  apply (sent_records_are_well_formed sample_repr (post None jo_json) sample_world
           (lit "leads")
           (build_item sample_repr jo_fields "json" taken_id (next_now_iso sample_world))).
  vm_compute. reflexivity.
Defined.

(** X6. The record holds the keys [userId], [name], [email], then
    [message] and [phone] exactly when the payload's value for them is not
    [None] (an empty string or a zero is kept), then [sourceType],
    [createdAt], [updatedAt], in this order and no others; no other field
    of the payload has any influence on it. *)
Theorem record_layout (rs : pyval -> str) (payload : dict pyval) (tag uid now : str) :
  dict_keys (build_item rs payload tag uid now) =
    [lit "userId"; lit "name"; lit "email"] ++
    (if is_none (py_get "message" payload) then [] else [lit "message"]) ++
    (if is_none (py_get "phone" payload) then [] else [lit "phone"]) ++
    [lit "sourceType"; lit "createdAt"; lit "updatedAt"] /\
  forall payload' : dict pyval,
    py_get "name" payload' = py_get "name" payload ->
    py_get "email" payload' = py_get "email" payload ->
    py_get "message" payload' = py_get "message" payload ->
    py_get "phone" payload' = py_get "phone" payload ->
    build_item rs payload' tag uid now = build_item rs payload tag uid now.
Proof.
  split.
  - unfold build_item, drop_none, dict_keys.
    by destruct (is_none (py_get "message" payload)), (is_none (py_get "phone" payload)).
  - intros payload' H1 H2 H3 H4. unfold build_item. by rewrite H1, H2, H3, H4.
Qed.

(** ** The life of a stored record *)

Lemma store_answer_Ok (w : world) (tn : str) (it : item) (ts : gmap str table) :
  store_answer w tn it = Ok ts ->
  exists t k,
    tables w !! tn = Some t /\ dict_get (key_attr t) it = Some k /\
    condition_holds (attribute_not_exists "userId") (rows t !! k) = true /\
    ts = with_record (tables w) tn t k it.
Proof.
  unfold store_answer. destruct (outage w); [discriminate|]. apply store_put_Ok.
Qed.

(** One run neither changes nor removes a record that carries a [userId],
    and it keeps the key attribute of every table. *)
Lemma record_survives_run (rs : pyval -> str) (ev : event) (w : world)
    (n : str) (t : table) (k : str) (e : item) :
  tables w !! n = Some t ->
  rows t !! k = Some e ->
  is_Some (dict_get "userId" e) ->
  exists t', tables (snd (lambda_handler rs ev w)) !! n = Some t' /\
             key_attr t' = key_attr t /\ rows t' !! k = Some e.
Proof.
  intros Ht Hr [u Hu].
  destruct (handler_outcome rs ev w) as [ | | | |tn payload tag msg ts _ _ _ _ Hs| ];
    try (exists t; cbn [after_submission tables]; by eauto).
  apply store_answer_Ok in Hs as (t0 & k0 & Ht0 & _ & Hc & ->).
  cbn [after_submission tables]. unfold with_record.
  destruct (decide (tn = n)) as [->|Hn].
  - rewrite lookup_insert_eq. eexists. split; [reflexivity|]. cbn [key_attr rows].
    assert (t0 = t) as -> by congruence. split; [done|].
    destruct (decide (k0 = k)) as [->|Hk].
    + rewrite Hr in Hc. simpl in Hc. rewrite Hu in Hc. discriminate.
    + by rewrite lookup_insert_ne.
  - rewrite lookup_insert_ne by done. by exists t.
Qed.

(** X7. Records are written once: whatever requests are served, in
    whatever number, a stored record that carries a [userId] is still
    stored afterwards, under the same key and unchanged. *)
Theorem stored_records_are_never_changed (rs : pyval -> str) (evs : list event)
    (w : world) (n : str) (t : table) (k : str) (e : item) :
  tables w !! n = Some t ->
  rows t !! k = Some e ->
  is_Some (dict_get "userId" e) ->
  exists t', tables (snd (serve rs evs w)) !! n = Some t' /\
             key_attr t' = key_attr t /\ rows t' !! k = Some e.
Proof.
  revert w t. induction evs as [|ev evs IH]; intros w t Ht Hr Hu.
  - by exists t.
  - cbn [serve].
    destruct (record_survives_run rs ev w n t k e Ht Hr Hu) as (t1 & Ht1 & Hk1 & Hr1).
    destruct (lambda_handler rs ev w) as [resp w1]. cbn [snd] in Ht1.
    destruct (IH w1 t1 Ht1 Hr1 Hu) as (t2 & Ht2 & Hk2 & Hr2).
    destruct (serve rs evs w1) as [resps w2]. cbn [snd] in *.
    exists t2. by rewrite Hk2.
Qed.

Lemma stored_records_are_never_changed_witness :
  exists t', tables (snd (serve sample_repr [post None jo_json; post None jo_json] busy_world))
               !! lit "leads" = Some t' /\
             key_attr t' = lit "userId" /\ rows t' !! lit "al" = Some al_record.
Proof.
  apply (stored_records_are_never_changed sample_repr
           [post None jo_json; post None jo_json] busy_world (lit "leads")
           {| key_attr := lit "userId"; rows := {[ lit "al" := al_record ]} |}
           (lit "al") al_record).
  - vm_compute. reflexivity.
  - vm_compute. reflexivity.
  - eexists. vm_compute. reflexivity.
Defined.

Lemma keyed_run (rs : pyval -> str) (ev : event) (w : world) :
  (forall n t, tables w !! n = Some t -> keyed t) ->
  forall n t, tables (snd (lambda_handler rs ev w)) !! n = Some t -> keyed t.
Proof.
  intros Hw.
  destruct (handler_outcome rs ev w) as [ | | | |tn payload tag msg ts _ _ _ _ Hs| ];
    try (cbn [after_submission tables]; by eauto).
  apply store_answer_Ok in Hs as (t0 & k0 & Ht0 & Hk0 & _ & ->).
  cbn [after_submission tables]. unfold with_record. intros n t.
  destruct (decide (tn = n)) as [->|Hn].
  - rewrite lookup_insert_eq. intros [= <-] k it. cbn [key_attr rows].
    destruct (decide (k0 = k)) as [->|Hk].
    + rewrite lookup_insert_eq. by intros [= <-].
    + rewrite lookup_insert_ne by done. by apply (Hw n t0).
  - rewrite lookup_insert_ne by done. apply Hw.
Qed.

(** X8. If every table holds each of its records under the value of the
    record's key attribute, it still does after any sequence of requests:
    in a table keyed by [userId], the key of a record is always its own
    [userId]. *)
Theorem tables_stay_keyed (rs : pyval -> str) (evs : list event) (w : world) :
  (forall n t, tables w !! n = Some t -> keyed t) ->
  forall n t, tables (snd (serve rs evs w)) !! n = Some t -> keyed t.
Proof.
  revert w. induction evs as [|ev evs IH]; intros w Hw; [done|].
  cbn [serve]. pose proof (keyed_run rs ev w Hw) as H1.
  destruct (lambda_handler rs ev w) as [resp w1]. cbn [snd] in H1.
  specialize (IH w1 H1). by destruct (serve rs evs w1).
Qed.

Lemma tables_stay_keyed_witness :
  exists t,
    tables (snd (serve sample_repr [post None jo_json] busy_world)) !! lit "leads" = Some t /\
    keyed t.
Proof.
  destruct (tables (snd (serve sample_repr [post None jo_json] busy_world)) !! lit "leads")
    as [t|] eqn:E; [|vm_compute in E; discriminate E].
  exists t. split; [reflexivity|].
  apply (tables_stay_keyed sample_repr [post None jo_json] busy_world) with (n := lit "leads");
    [|exact E].
  intros n t0 Hn. cbn [busy_world tables] in Hn.
  apply lookup_singleton_Some in Hn as [_ <-].
  intros k it Hk. cbn [rows key_attr] in *.
  apply lookup_singleton_Some in Hk as [<- <-]. reflexivity.
Defined.

(** ** The strings the email pattern accepts *)

Lemma many1_split (a : atom) (k : str -> bool) (s : str) :
  many1 a k s = true <->
  exists p q, s = p ++ q /\ p <> [] /\ forallb (atom_ok a) p = true /\ k q = true.
Proof.
  split.
  - induction s as [|c s IH]; cbn [many1]; [discriminate|].
    intros H. apply andb_true_iff in H as [Hc H].
    apply orb_true_iff in H as [H|H].
    + destruct (IH H) as (p & q & -> & _ & Hp & Hq).
      exists (c :: p), q. cbn [forallb]. by rewrite Hc, Hp.
    + exists [c], s. cbn [forallb]. by rewrite Hc.
  - intros (p & q & -> & Hne & Hp & Hq).
    induction p as [|c p IH]; [done|].
    cbn [forallb] in Hp. apply andb_true_iff in Hp as [Hc Hp].
    cbn [app many1]. rewrite Hc. cbn [andb].
    destruct p as [|c' p'].
    + cbn [app]. rewrite Hq. apply orb_true_r.
    + rewrite IH; done.
Qed.

Lemma chomp_Some (s t : str) : chomp s = Some t <-> s = t ++ [10].
Proof.
  revert t. induction s as [|c s IH]; intros t.
  - split; [discriminate|]. by destruct t.
  - rewrite chomp_cons. destruct s as [|c' s'].
    + split.
      * destruct (N.eqb_spec c 10) as [->|Hc]; [|discriminate]. by intros [= <-].
      * intros H. apply (app_inj_tail [] t) in H as [<- ->]. done.
    + split.
      * destruct (chomp (c' :: s')) as [t'|] eqn:E; [|discriminate].
        intros [= <-]. cbn [app]. f_equal. by apply IH.
      * destruct t as [|x t1]; [discriminate|].
        cbn [app]. intros [= <- H]. apply IH in H. by rewrite H.
Qed.

Lemma re_run_bol (r : regex) (b : bool) (s : str) :
  re_run (Bol :: r) b s = b && re_run r b s.
Proof. reflexivity. Qed.

Lemma re_run_one (a : atom) (r : regex) (b : bool) (s : str) :
  re_run (One a :: r) b s =
    match s with
    | c :: s' => atom_ok a c && re_run r false s'
    | [] => false
    end.
Proof. reflexivity. Qed.

Lemma re_run_eos (b : bool) (s : str) :
  re_run [Eos] b s = match s with [] => true | _ => false end.
Proof. by destruct s. Qed.

Lemma has_email_shape_spec (s : str) :
  has_email_shape s = true <-> local_domain_tld s.
Proof.
  unfold has_email_shape, re_match, anchored_email_pattern, local_domain_tld.
  rewrite re_run_bol. cbn [andb]. rewrite re_run_many1, many1_split.
  split.
  - intros (local & q & -> & Hl & Hpl & Hq).
    rewrite re_run_one in Hq. destruct q as [|c q]; [discriminate|].
    apply andb_true_iff in Hq as [Hc Hq]. apply N.eqb_eq in Hc as ->.
    rewrite re_run_many1 in Hq. apply many1_split in Hq as (domain & q' & -> & Hd & Hpd & Hq).
    rewrite re_run_one in Hq. destruct q' as [|c q']; [discriminate|].
    apply andb_true_iff in Hq as [Hc Hq]. apply N.eqb_eq in Hc as ->.
    rewrite re_run_many1 in Hq. apply many1_split in Hq as (tld & q'' & -> & Ht & Hpt & Hq).
    rewrite re_run_eos in Hq. destruct q''; [|discriminate].
    exists local, domain, tld. rewrite app_nil_r. done.
  - intros (local & domain & tld & -> & Hl & Hd & Ht & Hpl & Hpd & Hpt).
    exists local, ([64] ++ domain ++ [46] ++ tld). repeat split; try done.
    rewrite re_run_one. cbn [app]. cbn [atom_ok]. rewrite N.eqb_refl. cbn [andb].
    rewrite re_run_many1. apply many1_split.
    exists domain, ([46] ++ tld). repeat split; try done.
    rewrite re_run_one. cbn [app]. cbn [atom_ok]. rewrite N.eqb_refl. cbn [andb].
    rewrite re_run_many1. apply many1_split.
    exists tld, []. rewrite app_nil_r. done.
Qed.

(** X9. The strings [_is_valid_email] accepts are exactly those of the form
    [local@domain.tld], with three non-empty parts free of [@] and of
    whitespace, and those strings followed by one newline. *)
Theorem valid_emails (email : str) :
  _is_valid_email email = true <->
  local_domain_tld email \/
  exists t, email = t ++ [10] /\ local_domain_tld t.
Proof.
  rewrite is_valid_email_upto_newline. unfold upto_newline.
  rewrite orb_true_iff, has_email_shape_spec.
  split; (intros [H|H]; [by left|right]).
  - destruct (chomp email) as [t|] eqn:E; [|discriminate].
    exists t. split; [by apply chomp_Some|by apply has_email_shape_spec].
  - destruct H as (t & -> & H). apply has_email_shape_spec in H.
    by rewrite (proj2 (chomp_Some (t ++ [10]) t) eq_refl).
Qed.

(** ** What the handler reads of a request *)

(** The handler depends on the request through three things only: whether
    its method is [OPTIONS], its content type and its decoded body. *)
Lemma handler_reads (rs : pyval -> str) (ev1 ev2 : event) (w : world) :
  is_options ev1 = is_options ev2 ->
  content_type ev1 = content_type ev2 ->
  raw_body ev1 = raw_body ev2 ->
  lambda_handler rs ev1 w = lambda_handler rs ev2 w.
Proof.
  intros Ho Hc Hb.
  assert (Hp : _parse_body (python w) ev1 = _parse_body (python w) ev2)
    by (unfold _parse_body; by rewrite Hc, Hb).
  unfold lambda_handler, try_block, bindM, lift. by rewrite Ho, Hp.
Qed.



Lemma startswith_spec (p s : str) :
  startswith p s = true <-> exists q, s = p ++ q.
Proof.
  revert s. induction p as [|a p IH]; intros s; cbn [startswith app].
  - split; eauto.
  - destruct s as [|b s].
    + split; [discriminate|]. by intros [q [=]].
    + rewrite andb_true_iff, N.eqb_eq, IH. split.
      * intros [-> [q ->]]. eauto.
      * intros [q [= -> ->]]. eauto.
Qed.

Lemma str_contains_spec (needle hay : str) :
  str_contains needle hay = true <-> exists p q, hay = p ++ needle ++ q.
Proof.
  induction hay as [|c hay IH]; cbn [str_contains]; rewrite orb_true_iff, startswith_spec.
  - split.
    + intros [[q H]|H]; [|discriminate]. exists [], q. done.
    + intros (p & q & H). left. destruct p; [by exists q|discriminate].
  - rewrite IH. split.
    + intros [[q H]|(p & q & ->)]; [by exists [], q|]. by exists (c :: p), q.
    + intros (p & q & H). destruct p as [|x p]; [left; by exists q|].
      right. injection H as -> ->. eauto.
Qed.

(** X11. The tag of a parsed body follows the content type alone: it is
    [form] exactly when the content type contains
    [application/x-www-form-urlencoded] anywhere in it (with any text before
    or after, such as a charset parameter), and [json] otherwise. *)
Theorem source_type_follows_content_type (py : interpreter) (ev : event)
    (d : dict pyval) (tag : str) :
  _parse_body py ev = Ok (d, tag) ->
  (tag = lit "form" <-> exists p q, content_type ev = p ++ form_type ++ q) /\
  (tag = lit "json" <-> ~ exists p q, content_type ev = p ++ form_type ++ q).
Proof.
  rewrite <- str_contains_spec. unfold _parse_body, form_type.
  destruct (raw_body ev) as [text|]; cbn [bind]; [|discriminate].
  destruct (str_contains _ _).
  - intros [= _ <-]. split; split; done.
  - assert (Hj : forall r : result (dict pyval * str),
              (r = Ok (d, tag) -> tag = lit "json") ->
              r = Ok (d, tag) ->
              (tag = lit "form" <-> false = true) /\ (tag = lit "json" <-> false <> true)).
    { intros r Hr H. rewrite (Hr H). split; split; done. }
    apply Hj. destruct text as [|c text']; cbn [bind].
    + by intros [= _ <-].
    + destruct (json_loads _ _) as [[]|[]]; cbn [bind]; try discriminate.
      by intros [= _ <-].
Qed.

Lemma source_type_follows_content_type_witness :
  lit "form" = lit "form" <->
  exists p q,
    content_type (post (Some [(lit "Content-Type", lit "application/x-www-form-urlencoded; charset=utf-8")]) jo_form)
      = p ++ form_type ++ q.
Proof.
  apply (source_type_follows_content_type sample_python
           (post (Some [(lit "Content-Type", lit "application/x-www-form-urlencoded; charset=utf-8")]) jo_form)
           jo_fields (lit "form")).
  vm_compute. reflexivity.
Defined.

(** ** Form fields *)

Lemma decode_utf8_replace_nonempty (bs : list N) :
  bs <> [] -> decode_utf8_replace bs <> [].
Proof.
  destruct bs as [|b0 r]; [done|]. intros _.
  unfold decode_utf8_replace. cbn [length utf8_replace].
  by destruct (utf8_next b0 r).
Qed.

Lemma unquote_to_bytes_nonempty (s : str) : s <> [] -> unquote_to_bytes s <> [].
Proof.
  destruct s as [|c s]; [done|]. intros _. cbn [unquote_to_bytes].
  destruct (c =? 37); [|done].
  destruct s as [|h1 [|h2 s'']]; try done.
  by destruct (hex_value h1), (hex_value h2).
Qed.

Lemma unquote_runs_nonempty (s pending : str) :
  pending <> [] \/ s <> [] -> unquote_runs pending s <> [].
Proof.
  revert pending. induction s as [|c s IH]; intros pending H; cbn [unquote_runs].
  - destruct H as [H|H]; [|done].
    by apply decode_utf8_replace_nonempty, unquote_to_bytes_nonempty.
  - destruct (c <? 128).
    + apply IH. left. by destruct pending.
    + by destruct (decode_utf8_replace (unquote_to_bytes pending)).
Qed.

Lemma unquote_nonempty (s : str) : s <> [] -> unquote s <> [].
Proof.
  intros H. unfold unquote. destruct (existsb _ s); [|done].
  apply unquote_runs_nonempty. by right.
Qed.

(** [parse_qsl] keeps no pair with a blank value. *)
Lemma parse_qsl_values_nonempty (qs n x : str) :
  In (n, x) (parse_qsl qs) -> x <> [].
Proof.
  unfold parse_qsl. rewrite in_flat_map. intros (field & _ & H).
  unfold parse_qsl_field in H. destruct field as [|c field']; [done|].
  destruct (split_once 61 (c :: field')) as [[k v]|]; [|done].
  destruct v as [|v0 v']; [done|].
  destruct H as [[= _ <-]|[]].
  apply unquote_nonempty. unfold replace_char. done.
Qed.

(** X12. Under a form content type every parsed field is a non-empty
    string: blank values are dropped by the parser, so a key sent with a
    blank value is as good as absent, and the value is never a list. *)
Theorem form_fields_are_nonempty_strings (py : interpreter) (ev : event)
    (d : dict pyval) (k : str) (v : pyval) :
  _parse_body py ev = Ok (d, lit "form") ->
  dict_get k d = Some v ->
  exists s, v = PyStr s /\ s <> [].
Proof.
  unfold _parse_body. destruct (raw_body ev) as [text|]; cbn [bind]; [|discriminate].
  destruct (str_contains _ _).
  - intros [= <-]. unfold first_values.
    rewrite (dict_get_map (fun vs : list str =>
               match vs with x :: _ => PyStr x | [] => PyList [] end)).
    rewrite parse_qs_values.
    destruct (values_of k (parse_qsl text)) as [|x xs] eqn:E; [discriminate|].
    intros [= <-]. exists x. split; [done|].
    assert (Hin : In x (values_of k (parse_qsl text))) by (rewrite E; by left).
    unfold values_of in Hin. apply in_map_iff in Hin as ([n x'] & <- & Hin).
    apply filter_In in Hin as [Hin _]. by apply parse_qsl_values_nonempty in Hin.
  - destruct text as [|c text']; cbn [bind].
    + discriminate.
    + destruct (json_loads _ _) as [[]|[]]; cbn [bind]; discriminate.
Qed.

Lemma form_fields_are_nonempty_strings_witness :
  exists s, PyStr (lit "Jo") = PyStr s /\ s <> [].
Proof.
  apply (form_fields_are_nonempty_strings sample_python
           (post (Some [(lit "Content-Type", form_type)]) jo_form) jo_fields (lit "name")).
  - vm_compute. reflexivity.
  - vm_compute. reflexivity.
Defined.

(** ** Requests the handler cannot tell apart *)

(** X13. A body flagged as base64 that decodes to the text [text] is handled
    exactly like the unflagged request with [text] for a body: same
    response, same effects. *)
Theorem base64_body_is_transparent (rs : pyval -> str) (ev : event) (w : world)
    (text : str) :
  isBase64Encoded ev = true ->
  (do bytes <- b64decode (or_default (body ev) []); decode_utf8 bytes) = Ok text ->
  lambda_handler rs ev w = lambda_handler rs (with_plain_body text ev) w.
Proof.
  intros Hf Hd. apply handler_reads; try reflexivity.
  unfold raw_body. rewrite Hf, Hd. cbn [with_plain_body isBase64Encoded body].
  by destruct text.
Qed.

Lemma base64_body_is_transparent_witness :
  lambda_handler sample_repr jo_base64 sample_world =
    lambda_handler sample_repr (with_plain_body jo_json jo_base64) sample_world.
Proof.
  apply (base64_body_is_transparent sample_repr jo_base64 sample_world jo_json).
  - reflexivity.
  - vm_compute. reflexivity.
Defined.

(** X14. The method is not checked beyond [OPTIONS]: a request whose
    [httpMethod] is any other non-empty string ([GET], [DELETE], ...) is
    handled exactly like the [POST] with the same headers and body, and its
    request context is not looked at, even if it says [OPTIONS]. *)
Theorem method_is_not_checked (rs : pyval -> str) (ev : event) (w : world) (m : str) :
  httpMethod ev = Some m ->
  m <> [] ->
  m <> lit "OPTIONS" ->
  lambda_handler rs ev w = lambda_handler rs (as_post ev) w.
Proof.
  intros Hm Hne Hno. apply handler_reads; try reflexivity.
  unfold is_options, request_method, or_else. rewrite Hm.
  destruct m as [|c m']; [done|]. cbn [nonempty as_post httpMethod].
  by rewrite str_eqb_neq.
Qed.

Lemma method_is_not_checked_witness :
  lambda_handler sample_repr delete_request sample_world =
    lambda_handler sample_repr (as_post delete_request) sample_world.
Proof.
  apply (method_is_not_checked sample_repr delete_request sample_world (lit "DELETE")).
  - reflexivity.
  - discriminate.
  - discriminate.
Defined.

(** ** The order of the checks *)

(** X15. Once the body is parsed, the checks run in a fixed order and the
    first failure decides the answer, a 400 that leaves the world unchanged:
    a falsy [name] is reported whatever the email is; with a truthy [name],
    a falsy [email] is reported; with both truthy, an email whose string
    form the pattern refuses is reported as "Invalid email format". *)
Theorem first_failed_check_decides (rs : pyval -> str) (ev : event) (w : world)
    (tn : str) (payload : dict pyval) (tag : str) :
  request_method ev <> Some (lit "OPTIONS") ->
  nonempty (getenv "TABLE_NAME" w) = Some tn ->
  _parse_body (python w) ev = Ok (payload, tag) ->
  (truthy (py_get "name" payload) = false ->
     lambda_handler rs ev w =
       (_response w 400 [(lit "message", lit "Missing required field: name")], w)) /\
  (truthy (py_get "name" payload) = true ->
   truthy (py_get "email" payload) = false ->
     lambda_handler rs ev w =
       (_response w 400 [(lit "message", lit "Missing required field: email")], w)) /\
  (truthy (py_get "name" payload) = true ->
   truthy (py_get "email" payload) = true ->
   _is_valid_email (py_str rs (py_get "email" payload)) = false ->
     lambda_handler rs ev w =
       (_response w 400 [(lit "message", lit "Invalid email format")], w)).
Proof.
  intros Hm Ht Hp. split; [|split]; intros;
    eapply handler_invalid; eauto using validate_missing_name, validate_missing_email,
      validate_bad_email.
Qed.

Lemma first_failed_check_decides_witness :
  lambda_handler sample_repr (post None (dq "{'email':'not an email'}")) sample_world =
    (_response sample_world 400 [(lit "message", lit "Missing required field: name")],
     sample_world).
Proof.
  apply (first_failed_check_decides sample_repr (post None (dq "{'email':'not an email'}"))
           sample_world (lit "leads") [(lit "email", PyStr "not an email")] (lit "json")).
  - discriminate.
  - reflexivity.
  - vm_compute. reflexivity.
  - reflexivity.
Defined.

(** ** Replayed requests *)

(** X16. The handler is not idempotent: a valid request served twice in a
    row is answered 201 twice and leaves two records, one under each of the
    two identifiers drawn (provided these differ and are both free in a
    table keyed by [userId]); nothing in the request is used to detect the
    replay. *)
Theorem replay_stores_a_second_record (rs : pyval -> str) (ev : event) (w : world)
    (tn : str) (payload : dict pyval) (tag msg : str) (t : table) :
  request_method ev <> Some (lit "OPTIONS") ->
  nonempty (getenv "TABLE_NAME" w) = Some tn ->
  _parse_body (python w) ev = Ok (payload, tag) ->
  _validate_payload rs payload = (true, msg) ->
  outage w = None ->
  tables w !! tn = Some t ->
  key_attr t = lit "userId" ->
  let uid1 := next_user_id w in
  let uid2 := uuid_str (uuid4_int (urandom w (S (draws w)))) in
  rows t !! uid1 = None ->
  rows t !! uid2 = None ->
  uid1 <> uid2 ->
  exists t',
    List.map Response.statusCode (fst (serve rs [ev; ev] w)) = [201; 201]%Z /\
    tables (snd (serve rs [ev; ev] w)) !! tn = Some t' /\
    is_Some (rows t' !! uid1) /\ is_Some (rows t' !! uid2) /\
    size (rows t') = S (S (size (rows t))).
Proof.
  intros Hm Ht Hp Hv Ho Hl Hk uid1 uid2 Hf1 Hf2 Hne.
  set (it1 := build_item rs payload tag uid1 (next_now_iso w)).
  set (t1 := {| key_attr := key_attr t; rows := <[uid1 := it1]> (rows t) |}).
  set (w1 := after_submission w (with_record (tables w) tn t uid1 it1) tn it1).
  assert (H1 : lambda_handler rs ev w =
            (_response w 201 [(lit "message", lit "Submitted"); (lit "userId", uid1)], w1)).
  { pose proof (handler_valid rs ev w tn payload tag msg Hm Ht Hp Hv Ho) as Hrun.
    cbv zeta in Hrun. fold uid1 it1 in Hrun.
    destruct (build_item_fields rs payload tag uid1 (next_now_iso w)) as (Hu & _).
    fold it1 in Hu.
    by rewrite (store_put_fresh tn it1 uid1 t _ Hl Hk Hu Hf1) in Hrun. }
  assert (Hl1 : tables w1 !! tn = Some t1) by apply lookup_insert_eq.
  assert (Hf : rows t1 !! uid2 = None)
    by (cbn [t1 rows]; by rewrite lookup_insert_ne).
  set (it2 := build_item rs payload tag uid2 (next_now_iso w1)).
  assert (H2 : lambda_handler rs ev w1 =
            (_response w1 201 [(lit "message", lit "Submitted"); (lit "userId", uid2)],
             after_submission w1 (with_record (tables w1) tn t1 uid2 it2) tn it2)).
  { assert (Ht1 : nonempty (getenv "TABLE_NAME" w1) = Some tn) by exact Ht.
    assert (Ho1 : outage w1 = None) by exact Ho.
    pose proof (handler_valid rs ev w1 tn payload tag msg Hm Ht1 Hp Hv Ho1) as Hrun.
    cbv zeta in Hrun. change (next_user_id w1) with uid2 in Hrun. fold it2 in Hrun.
    destruct (build_item_fields rs payload tag uid2 (next_now_iso w1)) as (Hu & _).
    fold it2 in Hu.
    by rewrite (store_put_fresh tn it2 uid2 t1 _ Hl1 Hk Hu Hf) in Hrun. }
  exists {| key_attr := key_attr t1; rows := <[uid2 := it2]> (rows t1) |}.
  cbn [serve]. rewrite H1, H2. cbn [fst snd List.map _response Response.statusCode].
  split; [done|]. split; [apply lookup_insert_eq|].
  cbn [rows t1]. split; [|split].
  - rewrite lookup_insert_ne by done. rewrite lookup_insert_eq. by eexists.
  - rewrite lookup_insert_eq. by eexists.
  - rewrite map_size_insert_None by (by rewrite lookup_insert_ne).
    by rewrite map_size_insert_None.
Qed.

Lemma replay_stores_a_second_record_witness :
  List.map Response.statusCode
    (fst (serve sample_repr [post None jo_json; post None jo_json] sample_world))
    = [201; 201]%Z.
Proof.
  destruct (replay_stores_a_second_record sample_repr (post None jo_json) sample_world
              (lit "leads") jo_fields (lit "json") [] leads_table)
    as (t' & H & _);
    [ discriminate
    | vm_compute; reflexivity | vm_compute; reflexivity | vm_compute; reflexivity
    | vm_compute; reflexivity | vm_compute; reflexivity | vm_compute; reflexivity
    | vm_compute; reflexivity | vm_compute; reflexivity
    | intros E; vm_compute in E; discriminate E
    | exact H ].
Defined.
